(** * A storefront bot: throttle, catalog queries, promo codes, media
      carousel and the apartment wizard of [app.py]

    The development embeds the handlers of [src/app.py] as Rocq functions
    and proves the properties the specification states about them.

    - Python [str] values are lists of Unicode code points ([pystr]).
    - Python dictionaries ([FSMContext] data, [last_click_at]) are [gmap]s.
    - Handlers that mutate the FSM context, talk to the database and send
      messages run in a small state-and-exception monad over a [world].
    - The builtins whose meaning lies in the Unicode character database or
      in the database server ([str.lower], [str.isdigit], [int], SQL
      [lower]) are the fields of the class [Builtins]. *)

From stdpp Require Import gmap strings list fin_maps sorting.
From Stdlib Require Import ZArith NArith DecimalString.

Local Open Scope Z_scope.

(* ===================================================================== *)
(** * Part I: the model                                                   *)
(* ===================================================================== *)

(** ** Python strings *)

Module PyStr.

(** A Python [str]: its code points, in order. *)
Definition pystr : Type := list N.

(** UTF-8 decoding, used to read the literals of the source file. *)
Fixpoint utf8_decode (bs : list N) : pystr :=
  match bs with
  | [] => []
  | b :: r =>
      if (b <? 128)%N then b :: utf8_decode r
      else if (b <? 224)%N then
        match r with
        | c1 :: r1 => ((b - 192) * 64 + (c1 - 128))%N :: utf8_decode r1
        | _ => []
        end
      else if (b <? 240)%N then
        match r with
        | c1 :: c2 :: r2 =>
            ((b - 224) * 4096 + (c1 - 128) * 64 + (c2 - 128))%N :: utf8_decode r2
        | _ => []
        end
      else
        match r with
        | c1 :: c2 :: c3 :: r3 =>
            ((b - 240) * 262144 + (c1 - 128) * 4096 + (c2 - 128) * 64 + (c3 - 128))%N
              :: utf8_decode r3
        | _ => []
        end
  end.

(** A literal of the source, as a [pystr]. *)
Definition lit (s : string) : pystr :=
  utf8_decode (Ascii.N_of_ascii <$> String.list_ascii_of_string s).

(** The newline character, [\n]. *)
Definition nl : pystr := [10%N].

(** [str.isspace] on one character: the code points CPython's
    [_PyUnicode_IsWhitespace] accepts. *)
Definition is_whitespace (c : N) : bool :=
  ((9 <=? c) && (c <=? 13) || (28 <=? c) && (c <=? 32)
   || (c =? 133) || (c =? 160) || (c =? 5760)
   || (8192 <=? c) && (c <=? 8202)
   || (c =? 8232) || (c =? 8233) || (c =? 8239) || (c =? 8287)
   || (c =? 12288))%N.

Fixpoint lstrip (s : pystr) : pystr :=
  match s with
  | c :: r => if is_whitespace c then lstrip r else s
  | [] => []
  end.

(** [s.strip()] *)
Definition strip (s : pystr) : pystr :=
  rev (lstrip (rev (lstrip s))).

(** The line boundaries of [str.splitlines], [\r] apart. *)
Definition is_linebreak (c : N) : bool :=
  ((c =? 10) || (c =? 11) || (c =? 12) || (c =? 28) || (c =? 29) || (c =? 30)
   || (c =? 133) || (c =? 8232) || (c =? 8233))%N.

Fixpoint splitlines_from (cur : pystr) (s : pystr) : list pystr :=
  match s with
  | [] => match cur with [] => [] | _ => [rev cur] end
  | c :: r =>
      if (c =? 13)%N then
        match r with
        | 10%N :: r' => rev cur :: splitlines_from [] r'
        | _ => rev cur :: splitlines_from [] r
        end
      else if is_linebreak c then rev cur :: splitlines_from [] r
      else splitlines_from (c :: cur) r
  end.

(** [s.splitlines()]: [cur] above is the current line, reversed. *)
Definition splitlines (s : pystr) : list pystr := splitlines_from [] s.

(** [s.startswith(p)] *)
Fixpoint startswith (s p : pystr) : bool :=
  match p, s with
  | [], _ => true
  | _ :: _, [] => false
  | a :: p', b :: s' => (a =? b)%N && startswith s' p'
  end.

(** [s.split(",")] *)
Fixpoint split_from (sep : N) (cur : pystr) (s : pystr) : list pystr :=
  match s with
  | [] => [rev cur]
  | c :: r =>
      if (c =? sep)%N then rev cur :: split_from sep [] r
      else split_from sep (c :: cur) r
  end.

Definition split_on (sep : N) (s : pystr) : list pystr := split_from sep [] s.

(** [str(n)] for an [int]: its decimal digits, with a sign when negative. *)
Definition str_of_int (n : Z) : pystr :=
  Ascii.N_of_ascii <$> String.list_ascii_of_string (NilZero.string_of_int (Z.to_int n)).

(** [sep.join(l)] *)
Fixpoint join (sep : pystr) (l : list pystr) : pystr :=
  match l with
  | [] => []
  | [x] => x
  | x :: r => x ++ sep ++ join sep r
  end.

(** [s[:n]] for a non-negative [n]. *)
Definition slice_to (n : nat) (s : pystr) : pystr := take n s.

End PyStr.
Export PyStr.

(** ** The click throttle ([throttle], [THROTTLE_SECONDS]) *)

Module Throttle.

(** [THROTTLE_SECONDS = 0.6].  A [datetime] is its number of microseconds
    since the epoch, so the cooldown is 600000 of them.
    [(now - last).total_seconds()] is the correctly rounded quotient of the
    difference by [10**6], and [0.6] the double nearest to 3/5: their
    comparison as floats holds exactly when the difference is below
    600000. *)
Definition THROTTLE_MICROS : Z := 600000.

(** [last_click_at: dict[tuple[int, str], datetime]] *)
Abbreviation click_map := (gmap (Z * string) Z).

(** [throttle(user_id, key)] at time [now]: the returned flag, and
    [last_click_at] afterwards. *)
Definition throttle (last_click_at : click_map) (now : Z)
    (user_id : Z) (key : string) : bool * click_map :=
  let composite := (user_id, key) in
  match last_click_at !! composite with
  | Some last =>
      if now - last <? THROTTLE_MICROS then (true, last_click_at)
      else (false, <[composite := now]> last_click_at)
  | None => (false, <[composite := now]> last_click_at)
  end.

End Throttle.

(** ** Rows of the relational store *)

Module Store.

(** One entry of a media list: [{"type": kind, "value": reference}]. *)
Record media_item := MediaItem { m_type : pystr; m_value : pystr }.

#[export] Instance media_item_eq_dec : EqDecision media_item.
Proof. solve_decision. Defined.

(** The structured detail payload of a catalog item ([details_json]), as
    the value the JSON document decodes to. *)
Record details := Details {
  d_header_text : pystr;
  d_short_desc : pystr;
  d_quote_desc : pystr;
  d_features_text : pystr;
  d_media_items : list media_item
}.

(** A row of [apartments].  [details_json] is [None] for the column's
    default, the empty object. *)
Record apartment := Apartment {
  apt_id : Z;
  title : pystr;
  address_short : pystr;
  guests_max : Z;
  amenities : pystr;
  tags : list pystr;
  price_from : Z;
  channel_post_url : pystr;
  map_url : pystr;
  is_active : bool;
  sort_order : Z;
  details_json : option details;
  media_urls : list pystr
}.

(** A row of [promo_codes]. *)
Record promo_code := PromoCode {
  pc_id : Z;
  pc_code : pystr;
  pc_kind : pystr;
  pc_is_assigned : bool;
  pc_assigned_to : option Z;
  pc_assigned_at : option Z
}.

(** [ORDER BY sort_order, id] *)
Definition apt_le (a b : apartment) : Prop :=
  sort_order a < sort_order b ∨ (sort_order a = sort_order b ∧ apt_id a ≤ apt_id b).

#[export] Instance apt_le_dec a b : Decision (apt_le a b).
Proof. unfold apt_le. apply _. Defined.

(** [ORDER BY id] on [promo_codes] *)
Definition pc_le (a b : promo_code) : Prop := pc_id a ≤ pc_id b.

#[export] Instance pc_le_dec a b : Decision (pc_le a b).
Proof. unfold pc_le. apply _. Defined.

End Store.
Export Store.

(** ** Builtins whose tables are not part of the repository *)

(** [str.lower], [str.isdigit] and [int] read the Unicode character
    database of the interpreter; SQL [lower] follows the collation of the
    database server.  The model is parametric in them. *)
Class Builtins := {
  (** [s.lower()] *)
  str_lower : pystr → pystr;
  (** [s.isdigit()] *)
  str_isdigit : pystr → bool;
  (** [int(s)]; [None] when it raises [ValueError] *)
  int_of_str : pystr → option Z;
  (** [lower(s)] as PostgreSQL computes it *)
  sql_lower : pystr → pystr;
  (** [str(l)] for a list of media entries: its [repr], whose escapes
      follow the table of printable characters *)
  repr_media : list media_item → pystr
}.

(** The builtins restricted to ASCII letters and digits: every other code
    point is left alone by the case mappings and is no digit.  Used to run
    the model on concrete inputs. *)
Module AsciiBuiltins.

Definition lower_char (c : N) : N :=
  if ((65 <=? c) && (c <=? 90))%N then (c + 32)%N else c.

Definition is_ascii_digit (c : N) : bool := ((48 <=? c) && (c <=? 57))%N.

Definition isdigit (s : pystr) : bool :=
  match s with
  | [] => false
  | _ => forallb is_ascii_digit s
  end.

Fixpoint digits_value (acc : Z) (s : pystr) : option Z :=
  match s with
  | [] => Some acc
  | c :: r =>
      if is_ascii_digit c then digits_value (10 * acc + (Z.of_N c - 48)) r
      else None
  end.

(** [int(s)] on strings of ASCII digits with an optional sign, blanks
    around them stripped. *)
Definition parse_int (s : pystr) : option Z :=
  match strip s with
  | [] => None
  | 45%N :: (_ :: _) as r => Z.opp <$> digits_value 0 r
  | 43%N :: (_ :: _) as r => digits_value 0 r
  | r => digits_value 0 r
  end.

(** [repr] of a list of media entries whose strings need no escape. *)
Definition repr_item (item : media_item) : pystr :=
  lit "{'type': '" ++ m_type item ++ lit "', 'value': '" ++ m_value item ++ lit "'}".

Definition repr_items (l : list media_item) : pystr :=
  lit "[" ++ join (lit ", ") (repr_item <$> l) ++ lit "]".

#[export] Instance ascii_builtins : Builtins := {|
  str_lower := map lower_char;
  str_isdigit := isdigit;
  int_of_str := parse_int;
  sql_lower := map lower_char;
  repr_media := repr_items
|}.

End AsciiBuiltins.

(** ** The catalog query ([catalog_query]) *)

Module Catalog.

(** The filter object of a user: [filters.get("guests")] and
    [filters.get("tags", set())]. *)
Record filters := Filters {
  f_guests : option pystr;
  f_tags : gset pystr
}.

(** The largest [bigint] of the database, and the arguments that the
    driver encodes as one: a Python [int] outside of the range raises
    [DataError] before the statement is sent. *)
Definition BIGINT_MAX : Z := 9223372036854775807.

Definition bigint_arg (n : Z) : bool := (- BIGINT_MAX - 1 <=? n) && (n <=? BIGINT_MAX).

(** The bound that the [guests] branch of [catalog_query] adds to the
    query, if any. *)
Definition guests_bound (guests : option pystr) : option Z :=
  match guests with
  | Some g =>
      if bool_decide (g = lit "1-2") then Some 2
      else if bool_decide (g = lit "3-4") then Some 4
      else if bool_decide (g = lit "5+") then Some 5
      else None
  | None => None
  end.

Section with_builtins.
Context `{B : Builtins}.

(** [[str(tag).strip().lower() for tag in list(tags) if str(tag).strip()]] *)
Definition normalized_tags (ftags : gset pystr) : list pystr :=
  (λ tag, str_lower (strip tag)) <$>
    filter (λ tag, strip tag ≠ []) (elements ftags).

(** The conditions [cond] joined by [AND], each as a test on a row. *)
Definition catalog_conditions (f : filters) : list (apartment → bool) :=
  let cond := [is_active] in
  let cond :=
    match guests_bound (f_guests f) with
    | Some bound => cond ++ [λ apt, bound <=? guests_max apt]
    | None => cond
    end in
  let tags := normalized_tags (f_tags f) in
  match tags with
  | [] => cond
  | _ :: _ =>
      cond ++ [λ apt, existsb (λ tag, bool_decide (sql_lower tag ∈ tags)) (Store.tags apt)]
  end.

(** The [WHERE] clause. *)
Definition catalog_where (f : filters) (apt : apartment) : bool :=
  forallb (λ c, c apt) (catalog_conditions f).

(** The rows the statements range over: the table filtered and ordered
    by [sort_order, id]. *)
Definition catalog_selection (table : list apartment) (f : filters) : list apartment :=
  merge_sort apt_le (filter (λ apt, catalog_where f apt = true) table).

(** [catalog_query(db, filters, page, page_size)] on the table
    [apartments]: [None] when the call raises.  [LIMIT] and [OFFSET] are
    [bigint] parameters: the driver refuses an argument outside the range
    of [bigint] with a [DataError], and the server rejects a negative
    one. *)
Definition catalog_query (table : list apartment) (f : filters)
    (page : Z) (page_size : Z) : option (list apartment * Z) :=
  let total := Z.of_nat (length (filter (λ apt, catalog_where f apt = true) table)) in
  let offset := (page - 1) * page_size in
  if negb (bigint_arg page_size && bigint_arg offset) then None
  else if (page_size <? 0) || (offset <? 0) then None
  else
    let rows :=
      take (Z.to_nat page_size) (drop (Z.to_nat offset) (catalog_selection table f)) in
    Some (rows, total).

End with_builtins.

(** The default of [page_size]. *)
Definition PAGE_SIZE : Z := 5.

(** [pages] of [catalog_kb], without its lower bound of one: the number
    of the last page that holds a row. *)
Definition page_count (total page_size : Z) : Z :=
  (total + page_size - 1) / page_size.

End Catalog.

(** ** Python values and exceptions *)

Module Py.

Inductive exn :=
  | ValueError
  | TypeError
  | IndexError
  | KeyError
  | DataError
  | PostgresError.

(** What running a piece of Python yields: a value, or a raised exception. *)
Inductive result (A : Type) :=
  | Ok (a : A)
  | Raise (e : exn).
Arguments Ok {A} a.
Arguments Raise {A} e.

(** [l[i]]: a negative index counts from the end, an index out of range
    raises [IndexError]. *)
Definition py_getitem {A} (l : list A) (i : Z) : result A :=
  let n := Z.of_nat (length l) in
  let j := if i <? 0 then n + i else i in
  if (0 <=? j) && (j <? n) then
    match l !! Z.to_nat j with
    | Some x => Ok x
    | None => Raise IndexError
    end
  else Raise IndexError.

End Py.
Export Py.

(** ** Welcome promo codes ([cb_welcome]) *)

Module Promo.

(** What the handler tells the user. *)
Inductive welcome_reply :=
  | AlreadyReceived
  | NoCodesLeft
  | CodeIssued (code : pystr).

(** [UPDATE promo_codes SET is_assigned=TRUE, assigned_to=$1,
    assigned_at=NOW() WHERE id=$2] *)
Definition assign_code (user_id : Z) (now : Z) (id : Z)
    (table : list promo_code) : list promo_code :=
  (λ r, if bool_decide (pc_id r = id)
        then PromoCode (pc_id r) (pc_code r) (pc_kind r) true (Some user_id) (Some now)
        else r) <$> table.

(** [cb_welcome] for the user [user_id] at time [now], on the table
    [promo_codes]: the reply and the table afterwards. *)
Definition cb_welcome (table : list promo_code) (user_id : Z) (now : Z)
    : welcome_reply * list promo_code :=
  let already :=
    length (filter (λ r, pc_assigned_to r = Some user_id ∧ pc_kind r = lit "welcome") table) in
  if bool_decide (already ≠ 0%nat) then (AlreadyReceived, table)
  else
    let row :=
      head (merge_sort pc_le
              (filter (λ r, pc_kind r = lit "welcome" ∧ pc_is_assigned r = false) table)) in
    match row with
    | None => (NoCodesLeft, table)
    | Some row =>
        (CodeIssued (pc_code row), assign_code user_id now (pc_id row) table)
    end.

End Promo.

(** ** The media carousel ([get_apartment_media_items], [cb_apartment_media]) *)

Module Carousel.

(** [get_apartment_media_items(apt)] *)
Definition get_apartment_media_items (apt : apartment) : list media_item :=
  let media_items :=
    match details_json apt with
    | Some details => d_media_items details
    | None => []
    end in
  let normalized :=
    omap (λ item,
            let kind := strip (m_type item) in
            let value := strip (m_value item) in
            if bool_decide (kind ≠ []) && bool_decide (value ≠ [])
            then Some (MediaItem kind value) else None)
         media_items in
  match normalized with
  | _ :: _ => normalized
  | [] => (λ url, MediaItem (lit "url") url) <$> media_urls apt
  end.

(** What the handler shows: an alert, or the media item [current] at
    position [idx] with the indices of the previous and next items when
    there is more than one. *)
Inductive media_reply :=
  | ApartmentNotFound
  | NoMediaYet
  | ShowMedia (idx : Z) (current : media_item) (nav : option (Z * Z)).

(** The index the handler reads the list at. *)
Definition clamp_index (idx : Z) (len : Z) : Z := Z.max 0 (Z.min idx (len - 1)).

(** [cb_apartment_media] on the callback data [aptmedia:apt_id:idx:page],
    its three numbers parsed. *)
Definition cb_apartment_media (table : list apartment) (id idx page : Z)
    : result media_reply :=
  match head (filter (λ a, apt_id a = id) table) with
  | None => Ok ApartmentNotFound
  | Some apt =>
      let media_items := get_apartment_media_items apt in
      match media_items with
      | [] => Ok NoMediaYet
      | _ :: _ =>
          let len := Z.of_nat (length media_items) in
          let idx := clamp_index idx len in
          match py_getitem media_items idx with
          | Raise e => Raise e
          | Ok current =>
              let nav_row :=
                if 1 <? len then Some ((idx - 1) `mod` len, (idx + 1) `mod` len)
                else None in
              Ok (ShowMedia idx current nav_row)
          end
      end
  end.

End Carousel.

(** ** The apartment wizard *)

Module Wizard.

(** *** The FSM context, the chat and the store *)

(** A value held in the FSM data dictionary. *)
Inductive value :=
  | VNone
  | VStr (s : pystr)
  | VInt (n : Z)
  | VMedia (l : list media_item).

#[export] Instance value_eq_dec : EqDecision value.
Proof. solve_decision. Defined.

(** Truth value of a Python object. *)
Definition truthy (v : value) : bool :=
  match v with
  | VNone => false
  | VStr s => bool_decide (s ≠ [])
  | VInt n => bool_decide (n ≠ 0)
  | VMedia l => bool_decide (l ≠ [])
  end.

(** The states of [AdminApartmentWizardState], and the states of the
    other groups. *)
Inductive fsm_state :=
  | waiting_text
  | waiting_choice
  | waiting_media
  | preview
  | other_state (name : pystr).

#[export] Instance fsm_state_eq_dec : EqDecision fsm_state.
Proof. solve_decision. Defined.

Inductive keyboard :=
  | wizard_text_kb
  | wizard_media_kb
  | wizard_preview_kb
  | admin_apartments_menu_kb
  | wizard_choice_kb (options : list (pystr * pystr)).

(** What a handler sends to the chat.  The chat takes every call: a
    handler is followed on the runs in which the Bot API does not fail;
    the database may fail ([w_db_faults]). *)
Inductive outgoing :=
  | SendMessage (text : pystr) (reply_markup : option keyboard)
  | DeleteMessage (message_id : Z)
  | AnswerCallback (text : pystr) (show_alert : bool).

(** The FSM context of the operator ([w_state], [w_data]), the table
    [apartments] with its identifier sequence, the statements that will
    fail ([w_db_faults]: one flag per statement to come, none when the
    list is exhausted), and the chat. *)
Record world := World {
  w_state : option fsm_state;
  w_data : gmap pystr value;
  w_apartments : list apartment;
  w_next_apt_id : Z;
  w_db_faults : list bool;
  w_outbox : list outgoing;
  w_next_message_id : Z
}.

(** An incoming message: sender, identifier, text, the file identifiers
    of the sizes of its photo, of its video, and of its document with the
    MIME type. *)
Record message := Message {
  msg_from : Z;
  msg_id : Z;
  msg_text : option pystr;
  msg_photo : list pystr;
  msg_video : option pystr;
  msg_document : option (pystr * option pystr)
}.

(** *** Handlers as computations *)

(** A handler: it may change the world and may raise; what it did before
    raising stays done. *)
Definition M (A : Type) : Type := world → result A * world.

Definition ret {A} (a : A) : M A := λ w, (Ok a, w).

Definition bind {A B} (m : M A) (f : A → M B) : M B :=
  λ w, match m w with
       | (Ok a, w') => f a w'
       | (Raise e, w') => (Raise e, w')
       end.

Definition lift {A} (r : result A) : M A := λ w, (r, w).

Definition raise {A} (e : exn) : M A := λ w, (Raise e, w).

Declare Scope handler_scope.
Delimit Scope handler_scope with handler.
Notation "'let*' x := m 'in' k" := (bind m (λ x, k))
  (at level 10, x name, m at level 100, k at level 200) : handler_scope.
Notation "m >> k" := (bind m (λ _, k))
  (at level 100, k at level 200, right associativity) : handler_scope.
Local Open Scope handler_scope.

(** The world after a handler, and what it returned. *)
Definition exec {A} (m : M A) (w : world) : world := snd (m w).
Definition outcome {A} (m : M A) (w : world) : result A := fst (m w).

(** [await state.get_data()] *)
Definition get_data : M (gmap pystr value) := λ w, (Ok (w_data w), w).

(** [await state.get_state()] *)
Definition get_state : M (option fsm_state) := λ w, (Ok (w_state w), w).

Definition with_fsm (s : option fsm_state) (d : gmap pystr value) (w : world) : world :=
  World s d (w_apartments w) (w_next_apt_id w) (w_db_faults w)
        (w_outbox w) (w_next_message_id w).

(** [await state.update_data(k1=v1, ...)] *)
Definition update_data (kv : list (pystr * value)) : M unit :=
  λ w, (Ok tt, with_fsm (w_state w) (foldl (λ d p, <[p.1 := p.2]> d) (w_data w) kv) w).

(** [await state.set_state(s)] *)
Definition set_state (s : fsm_state) : M unit :=
  λ w, (Ok tt, with_fsm (Some s) (w_data w) w).

(** [await state.clear()] *)
Definition state_clear : M unit :=
  λ w, (Ok tt, with_fsm None ∅ w).

Definition emit (o : outgoing) (w : world) : world :=
  World (w_state w) (w_data w) (w_apartments w) (w_next_apt_id w) (w_db_faults w)
        (w_outbox w ++ [o]) (w_next_message_id w).

(** [await message.answer(text, reply_markup=kb)]: the identifier of the
    message sent. *)
Definition answer (text : pystr) (kb : option keyboard) : M Z :=
  λ w, (Ok (w_next_message_id w),
        World (w_state w) (w_data w) (w_apartments w) (w_next_apt_id w) (w_db_faults w)
              (w_outbox w ++ [SendMessage text kb]) (w_next_message_id w + 1)).

(** [await bot.delete_message(...)] and [await message.delete()], inside
    the [try] that the source wraps them in. *)
Definition delete_message (id : Z) : M unit :=
  λ w, (Ok tt, emit (DeleteMessage id) w).

(** [await call.answer(text, show_alert=...)] *)
Definition call_answer (text : pystr) (show_alert : bool) : M unit :=
  λ w, (Ok tt, emit (AnswerCallback text show_alert) w).

(** One statement sent to the database: it fails when the next flag of
    [w_db_faults] says so. *)
Definition db_statement : M unit :=
  λ w, match w_db_faults w with
       | true :: rest =>
           (Raise PostgresError,
            World (w_state w) (w_data w) (w_apartments w) (w_next_apt_id w) rest
                  (w_outbox w) (w_next_message_id w))
       | false :: rest =>
           (Ok tt,
            World (w_state w) (w_data w) (w_apartments w) (w_next_apt_id w) rest
                  (w_outbox w) (w_next_message_id w))
       | [] => (Ok tt, w)
       end.

Definition set_apartments (rows : list apartment) (next_id : Z) : M unit :=
  λ w, (Ok tt,
        World (w_state w) (w_data w) rows next_id (w_db_faults w)
              (w_outbox w) (w_next_message_id w)).

(** The range of the column type [INTEGER]: the driver refuses an
    argument outside of it. *)
Definition int4_ok (n : Z) : bool := (-2147483648 <=? n) && (n <=? 2147483647).

(** The range of [BIGINT]. *)
Definition int8_ok (n : Z) : bool :=
  (-9223372036854775808 <=? n) && (n <=? 9223372036854775807).

(** [await db.fetchrow("SELECT * FROM apartments WHERE id=$1", id)]: the
    driver refuses an [id] outside the range of [BIGINT]. *)
Definition db_fetch_apartment (id : Z) : M (option apartment) :=
  db_statement >>
  if negb (int8_ok id) then raise DataError
  else λ w, (Ok (head (filter (λ a, apt_id a = id) (w_apartments w))), w).

(** [d.get(k, default)] *)
Definition dict_get (d : gmap pystr value) (k : pystr) (dflt : value) : value :=
  default dflt (d !! k).

(** *** The step table *)

Record step := Step {
  key : pystr;
  kind : pystr;
  section : pystr;
  label : pystr;
  example : option pystr;
  options : option (list (pystr * pystr))
}.

Definition APARTMENT_WIZARD_STEPS : list step := [
  {| key := lit "media_items";
     kind := lit "media_upload";
     section := lit "1/8";
     label := lit "Загрузите все фото/видео для карусели";
     example := Some (lit "Отправьте 1+ медиа файла. Затем нажмите «✅ Завершить медиа».");
     options := None |};
  {| key := lit "header_text";
     kind := lit "text";
     section := lit "2/8";
     label := lit "Заголовок объявления (будет выделен жирным и подчёркнутым)";
     example := Some (lit "ЖК Панорама, ул. Героев Сарабеева, 5к1" ++ nl ++ lit "1-к квартира для 2-4 гостей");
     options := None |};
  {| key := lit "short_desc";
     kind := lit "text";
     section := lit "3/8";
     label := lit "Короткое описание";
     example := Some (lit "Уютная квартира рядом с парком и удобным выездом в центр.");
     options := None |};
  {| key := lit "quote_desc";
     kind := lit "text";
     section := lit "4/8";
     label := lit "Текст в цитате (рамке) под описанием";
     example := Some (lit "Тихий двор, быстрый Wi‑Fi, бесконтактное заселение.");
     options := None |};
  {| key := lit "features_text";
     kind := lit "text";
     section := lit "5/8";
     label := lit "Что есть в квартире (тоже в цитате)";
     example := Some (lit "Двуспальная кровать, кондиционер, стиральная машина, кухня.");
     options := None |};
  {| key := lit "guests_max";
     kind := lit "int";
     section := lit "6/8";
     label := lit "Максимум гостей (цифрой)";
     example := Some (lit "4");
     options := None |};
  {| key := lit "tags";
     kind := lit "text";
     section := lit "7/8";
     label := lit "Теги для фильтров (через запятую)";
     example := Some (lit "парковка,видовая,тихо,для семьи");
     options := None |};
  {| key := lit "map_url";
     kind := lit "url";
     section := lit "8/8";
     label := lit "Ссылка на карту";
     example := Some (lit "https://maps.google.com/?q=55.75,37.61");
     options := None |}
].

(** *** Texts of the handlers *)

Definition text_no_access : pystr :=
  lit "Нет доступа".

Definition text_wizard_stopped : pystr :=
  lit "Мастер остановлен.".

Definition text_choice_inactive : pystr :=
  lit "Этот выбор сейчас неактивен".

Definition text_saved : pystr :=
  lit "Сохранено".

Definition text_not_media_stage : pystr :=
  lit "Сейчас не этап медиа".

Definition text_media_saved : pystr :=
  lit "Медиа сохранены".

Definition text_not_media_upload_stage : pystr :=
  lit "Сейчас не этап загрузки медиа.".

Definition text_send_media : pystr :=
  lit "Пришлите фото/видео файлом или ссылки (по одной в строке).".

Definition text_empty_value : pystr :=
  lit "Пустое значение. Введите текст или нажмите «Отменить мастер».".

Definition text_need_integer : pystr :=
  lit "Нужно ввести целое число. Пример: 3500".

Definition text_need_link : pystr :=
  lit "Нужна ссылка, начинающаяся с http:// или https://".

Definition text_add_cancelled : pystr :=
  lit "Добавление квартиры отменено.".

Definition text_start_over : pystr :=
  lit "Начинаем заново 👌".

Definition text_apartment_updated : pystr :=
  lit "Квартира обновлена ✅".

Definition text_apartment_added : pystr :=
  lit "Квартира добавлена ✅".

Definition text_preview_reuse : pystr :=
  lit "Текст предпросмотра можно использовать как готовое описание для поста в канале.".

Definition text_apartment_not_found : pystr :=
  lit "Квартира не найдена".

Definition text_add_intro : pystr :=
  lit "🧩 <b>Мастер добавления квартиры</b>" ++ nl ++ nl
  ++ lit "Короткий сценарий:" ++ nl
  ++ lit "1) загрузка фото/видео" ++ nl
  ++ lit "2) заголовок объявления (жирный + подчёркнутый)" ++ nl
  ++ lit "3) короткое описание" ++ nl
  ++ lit "4) описание в цитате" ++ nl
  ++ lit "5) что есть в квартире (цитата)" ++ nl
  ++ lit "6) максимум гостей" ++ nl
  ++ lit "7) теги для фильтров (парковка, видовая, тихо, для семьи)" ++ nl
  ++ lit "8) ссылка на карту" ++ nl ++ nl
  ++ lit "В конце — красивый предпросмотр и сохранение.".

Definition text_edit_intro : pystr :=
  lit "🧩 <b>Мастер редактирования квартиры</b>" ++ nl ++ nl
  ++ lit "Откройте шаги и при необходимости измените значения." ++ nl
  ++ lit "В конце будет предпросмотр и сохранение в существующую карточку.".

Definition default_title : pystr :=
  lit "Квартира".

Definition default_address : pystr :=
  lit "Адрес не указан".


Definition text_header_hint : pystr :=
  nl ++ nl ++ lit "Этот блок будет показан в карточке как <b><u>заголовок объявления</u></b>.".

(** *** The preview text ([build_apartment_preview_text]) *)

(** A piece of the f-string: literal text, [data.get(key, '')], or
    [len(media_items)]. *)
Inductive segment :=
  | Text (s : pystr)
  | Field (k : pystr)
  | MediaCount.

(** The f-string of [build_apartment_preview_text], piece by piece. *)
Definition preview_template : list segment := [
  Text (lit "🏠 <b>Предпросмотр карточки/поста</b>" ++ nl ++ nl
        ++ lit "<b>Верхний блок</b>" ++ nl);
  Field (lit "header_text");
  Text (nl ++ nl ++ lit "<b>Описание</b>" ++ nl);
  Field (lit "short_desc");
  Text (nl ++ nl ++ lit "<blockquote>");
  Field (lit "quote_desc");
  Text (lit "</blockquote>" ++ nl ++ nl
        ++ lit "<b>Что есть в квартире</b>" ++ nl
        ++ lit "<blockquote>");
  Field (lit "features_text");
  Text (lit "</blockquote>" ++ nl ++ nl
        ++ lit "<b>Публикация</b>" ++ nl
        ++ lit "• Максимум гостей: ");
  Field (lit "guests_max");
  Text (nl ++ lit "• Теги: ");
  Field (lit "tags");
  Text (nl ++ lit "• Медиа-файлов/ссылок: ");
  MediaCount;
  Text (nl ++ lit "• Ссылка на карту: ");
  Field (lit "map_url");
  Text (nl ++ lit "• Порядок: ");
  Field (lit "sort_order")
].


(** [[x.strip() for x in s.splitlines() if x.strip()]] *)
Definition nonblank_lines (s : pystr) : list pystr :=
  strip <$> filter (λ x, strip x ≠ []) (splitlines s).

Section handlers.
Context `{B : Builtins} (ADMIN_IDS : gset Z).

(** [int(v)] *)
Definition py_int (v : value) : result Z :=
  match v with
  | VInt n => Ok n
  | VStr s =>
      match int_of_str s with
      | Some n => Ok n
      | None => Raise ValueError
      end
  | VNone | VMedia _ => Raise TypeError
  end.

(** [str(v)], and [v] inside an f-string. *)
Definition py_str (v : value) : pystr :=
  match v with
  | VNone => lit "None"
  | VStr s => s
  | VInt n => str_of_int n
  | VMedia l => repr_media l
  end.

(** [v or []] *)
Definition or_empty_list (v : value) : value :=
  if truthy v then v else VMedia [].

(** [len(media_items)] in the preview, after a string was split into
    its lines. *)
Definition preview_media_count (data : gmap pystr value) : result Z :=
  match or_empty_list (dict_get data (lit "media_items") VNone) with
  | VStr s => Ok (Z.of_nat (length (nonblank_lines s)))
  | VMedia l => Ok (Z.of_nat (length l))
  | VInt _ | VNone => Raise TypeError
  end.

Definition render_segment (data : gmap pystr value) (count : Z) (seg : segment) : pystr :=
  match seg with
  | Text s => s
  | Field k => py_str (dict_get data k (VStr []))
  | MediaCount => str_of_int count
  end.

(** [build_apartment_preview_text(data)] *)
Definition build_apartment_preview_text (data : gmap pystr value) : result pystr :=
  match preview_media_count data with
  | Raise e => Raise e
  | Ok count => Ok (concat (render_segment data count <$> preview_template))
  end.

(** *** Prompts ([wizard_clear_prev_prompt], [wizard_send_prompt],
        [wizard_show_step], [wizard_advance]) *)

Definition wizard_clear_prev_prompt : M unit :=
  let* data := get_data in
  let prompt_id := dict_get data (lit "wizard_prompt_message_id") VNone in
  if negb (truthy prompt_id) then ret tt
  else
    match py_int prompt_id with
    | Ok id => delete_message id
    | Raise _ => ret tt
    end.

Definition wizard_send_prompt (text : pystr) (kb : keyboard) : M unit :=
  wizard_clear_prev_prompt >>
  let* sent := answer text (Some kb) in
  update_data [(lit "wizard_prompt_message_id", VInt sent)].

(** The list held under [media_items], as the media step reads it:
    [data.get("media_items") or []], and [[]] for what is no list. *)
Definition media_list (data : gmap pystr value) : list media_item :=
  match dict_get data (lit "media_items") VNone with
  | VMedia l => l
  | _ => []
  end.

Definition wizard_show_step : M unit :=
  let* data := get_data in
  let* idx := lift (py_int (dict_get data (lit "wizard_index") (VInt 0))) in
  let* step := lift (py_getitem APARTMENT_WIZARD_STEPS idx) in
  let total := Z.of_nat (length APARTMENT_WIZARD_STEPS) in
  let prefix :=
    lit "<b>Шаг " ++ str_of_int (idx + 1) ++ lit "/" ++ str_of_int total ++ lit "</b>" ++ nl
    ++ lit "Раздел: " ++ section step ++ nl ++ nl in
  if bool_decide (kind step = lit "choice") then
    set_state waiting_choice >>
    let text :=
      prefix ++ lit "Сейчас укажите: <b>" ++ label step ++ lit "</b>" ++ nl
      ++ lit "Выберите вариант кнопкой:" in
    match options step with
    | Some opts => wizard_send_prompt text (wizard_choice_kb opts)
    | None => raise KeyError
    end
  else if bool_decide (kind step = lit "media_upload") then
    set_state waiting_media >>
    let media_items := media_list data in
    let text :=
      prefix
      ++ (lit "Сейчас укажите: <b>" ++ label step ++ lit "</b>" ++ nl)
      ++ (lit "Отправляйте фото/видео файлами прямо в чат." ++ nl)
      ++ (lit "Можно также отправить ссылки (каждая с новой строки)." ++ nl)
      ++ (lit "Уже добавлено: <b>" ++ str_of_int (Z.of_nat (length media_items))
          ++ lit "</b>" ++ nl ++ nl)
      ++ lit "Когда закончите, нажмите «✅ Завершить медиа»." in
    wizard_send_prompt text wizard_media_kb
  else
    set_state waiting_text >>
    let text :=
      prefix ++ lit "Сейчас укажите: <b>" ++ label step ++ lit "</b>" ++ nl
      ++ lit "Введите значение текстом." in
    let text :=
      if bool_decide (key step = lit "header_text") then text ++ text_header_hint
      else text in
    let text :=
      match example step with
      | Some ((_ :: _) as ex) => text ++ nl ++ lit "Пример: <b>" ++ ex ++ lit "</b>"
      | _ => text
      end in
    wizard_send_prompt text wizard_text_kb.

Definition wizard_advance : M unit :=
  let* data := get_data in
  let* idx0 := lift (py_int (dict_get data (lit "wizard_index") (VInt 0))) in
  let idx := idx0 + 1 in
  update_data [(lit "wizard_index", VInt idx); (lit "custom_step_key", VNone)] >>
  if Z.of_nat (length APARTMENT_WIZARD_STEPS) <=? idx then
    let* final_data := get_data in
    set_state preview >>
    wizard_clear_prev_prompt >>
    let* text := lift (build_apartment_preview_text final_data) in
    let* sent := answer text (Some wizard_preview_kb) in
    update_data [(lit "wizard_prompt_message_id", VInt sent)]
  else wizard_show_step.

(** [apartment_wizard_defaults_from_apartment(apt)] *)
Definition apartment_wizard_defaults_from_apartment (apt : apartment)
    : list (pystr * value) :=
  let tags := join (lit ",") (Store.tags apt) in
  let media_urls := media_urls apt in
  let media_items :=
    match details_json apt with
    | Some details => d_media_items details
    | None => []
    end in
  let media_items :=
    match media_items, media_urls with
    | [], _ :: _ => (λ u, MediaItem (lit "url") u) <$> media_urls
    | _, _ => media_items
    end in
  [ (lit "header_text",
     VStr match details_json apt with
          | Some details => d_header_text details
          | None =>
              match title apt, address_short apt with
              | (_ :: _) as t, _ => t
              | [], a => a
              end
          end);
    (lit "short_desc",
     VStr match details_json apt with Some details => d_short_desc details | None => [] end);
    (lit "quote_desc",
     VStr match details_json apt with Some details => d_quote_desc details | None => [] end);
    (lit "features_text",
     VStr match details_json apt with Some details => d_features_text details | None => [] end);
    (lit "guests_max", VInt (if guests_max apt =? 0 then 2 else guests_max apt));
    (lit "tags", VStr tags);
    (lit "media_items", VMedia media_items);
    (lit "map_url", VStr (map_url apt));
    (lit "sort_order", VInt (sort_order apt)) ].

(** *** Entering and leaving the wizard *)

(** [cb_admin_apt_add] *)
Definition cb_admin_apt_add (from_user : Z) : M unit :=
  if bool_decide (from_user ∉ ADMIN_IDS) then call_answer text_no_access true
  else
    state_clear >>
    update_data [(lit "wizard_index", VInt 0); (lit "wizard_mode", VStr (lit "add"))] >>
    let* _ := answer text_add_intro (Some wizard_text_kb) in
    wizard_show_step >>
    call_answer [] false.

(** [cb_admin_apt_wizard] on the callback data [admin:apt:wizard:apt_id] *)
Definition cb_admin_apt_wizard (from_user : Z) (id : Z) : M unit :=
  if bool_decide (from_user ∉ ADMIN_IDS) then call_answer text_no_access true
  else
    let* apt := db_fetch_apartment id in
    match apt with
    | None => call_answer text_apartment_not_found true
    | Some apt =>
        let defaults := apartment_wizard_defaults_from_apartment apt in
        state_clear >>
        update_data ([(lit "wizard_index", VInt 0);
                      (lit "wizard_mode", VStr (lit "edit"));
                      (lit "wizard_apartment_id", VInt id)] ++ defaults) >>
        let* _ := answer text_edit_intro (Some wizard_text_kb) in
        wizard_show_step >>
        call_answer [] false
    end.

(** [cb_apartment_wizard_cancel] *)
Definition cb_apartment_wizard_cancel : M unit :=
  state_clear >>
  let* _ := answer text_wizard_stopped (Some admin_apartments_menu_kb) in
  call_answer [] false.

(** *** The steps *)

(** [cb_apartment_wizard_pick] on [aptw:pick:value] *)
Definition cb_apartment_wizard_pick (from_user : Z) (value : pystr) : M unit :=
  if bool_decide (from_user ∉ ADMIN_IDS) then call_answer text_no_access true
  else
    let* current := get_state in
    if bool_decide (current ≠ Some waiting_choice) then
      call_answer text_choice_inactive false
    else
      let* data := get_data in
      let* idx := lift (py_int (dict_get data (lit "wizard_index") (VInt 0))) in
      let* step := lift (py_getitem APARTMENT_WIZARD_STEPS idx) in
      let key := key step in
      if bool_decide (value = lit "custom") then
        update_data [(lit "custom_step_key", VStr key)] >>
        set_state waiting_text >>
        wizard_send_prompt
          (lit "Введите значение для поля <b>" ++ label step ++ lit "</b> вручную.")
          wizard_text_kb >>
        call_answer [] false
      else
        update_data [(key, VStr value)] >>
        wizard_advance >>
        call_answer text_saved false.

(** [cb_apartment_wizard_media_done] *)
Definition cb_apartment_wizard_media_done (from_user : Z) : M unit :=
  if bool_decide (from_user ∉ ADMIN_IDS) then call_answer text_no_access true
  else
    let* current := get_state in
    if bool_decide (current ≠ Some waiting_media) then
      call_answer text_not_media_stage false
    else
      wizard_advance >>
      call_answer text_media_saved false.

(** The entries a message adds to the media list: the [if]/[elif] chain
    of [msg_apartment_wizard_media].  [added] is their number. *)
Definition accepted_media (msg : message) : list media_item :=
  match msg_photo msg, msg_video msg, msg_document msg, msg_text msg with
  | (_ :: _) as photo, _, _, _ =>
      [MediaItem (lit "photo") (default [] (last photo))]
  | [], Some video, _, _ => [MediaItem (lit "video") video]
  | [], None, Some (file_id, mime_type), _ =>
      let mime := str_lower (default [] mime_type) in
      if startswith mime (lit "image/") then [MediaItem (lit "photo") file_id]
      else if startswith mime (lit "video/") then [MediaItem (lit "video") file_id]
      else [MediaItem (lit "document") file_id]
  | [], None, None, Some ((_ :: _) as text) =>
      let urls := nonblank_lines text in
      let valid :=
        filter (λ u, startswith u (lit "http://") || startswith u (lit "https://") = true) urls in
      (λ url, MediaItem (lit "url") url) <$> valid
  | [], None, None, _ => []
  end.

(** [msg_apartment_wizard_media] *)
Definition msg_apartment_wizard_media (msg : message) : M unit :=
  if bool_decide (msg_from msg ∉ ADMIN_IDS) then ret tt
  else
    let* data := get_data in
    let* idx := lift (py_int (dict_get data (lit "wizard_index") (VInt 0))) in
    if Z.of_nat (length APARTMENT_WIZARD_STEPS) <=? idx then ret tt
    else
      let* step := lift (py_getitem APARTMENT_WIZARD_STEPS idx) in
      if bool_decide (kind step ≠ lit "media_upload") then
        let* _ := answer text_not_media_upload_stage None in ret tt
      else
        let media_items := media_list data in
        let new_items := accepted_media msg in
        let added := length new_items in
        if bool_decide (added = 0%nat) then
          let* _ := answer text_send_media (Some wizard_media_kb) in ret tt
        else
          update_data [(lit "media_items", VMedia (media_items ++ new_items))] >>
          delete_message (msg_id msg) >>
          wizard_show_step.

(** [msg_apartment_wizard_text] *)
Definition msg_apartment_wizard_text (msg : message) : M unit :=
  if bool_decide (msg_from msg ∉ ADMIN_IDS) then ret tt
  else
    let raw := strip (default [] (msg_text msg)) in
    match raw with
    | [] => let* _ := answer text_empty_value None in ret tt
    | _ :: _ =>
        let* data := get_data in
        let* idx := lift (py_int (dict_get data (lit "wizard_index") (VInt 0))) in
        let* step := lift (py_getitem APARTMENT_WIZARD_STEPS idx) in
        let key := VStr (key step) in
        let key :=
          if truthy (dict_get data (lit "custom_step_key") VNone)
          then dict_get data (lit "custom_step_key") VNone else key in
        let kind := kind step in
        let store (value : value) : M unit :=
          match key with
          | VStr key =>
              (* a keyword passed twice *)
              if bool_decide (key = lit "custom_step_key") then raise TypeError
              else
                update_data [(key, value); (lit "custom_step_key", VNone)] >>
                delete_message (msg_id msg) >>
                wizard_advance
          | _ => raise TypeError (* keywords must be strings *)
          end in
        if bool_decide (kind = lit "int") then
          if negb (str_isdigit raw) then
            let* _ := answer text_need_integer None in ret tt
          else
            let* n := lift (py_int (VStr raw)) in
            store (VInt n)
        else if bool_decide (kind = lit "url") then
          if negb (startswith raw (lit "http://") || startswith raw (lit "https://")) then
            let* _ := answer text_need_link None in ret tt
          else store (VStr raw)
        else store (VStr raw)
    end.

(** *** Preview: cancel, restart, save ([cb_apartment_wizard_preview]) *)

(** [title[:n - 3] + "..."] when [title] is longer than [n]. *)
Definition ellipsize (n : nat) (s : pystr) : pystr :=
  if bool_decide (n < length s)%nat then take (n - 3) s ++ lit "..." else s.

(** The first line of the header, stripped, or [dflt] without a header. *)
Definition first_line_or (header_text dflt : pystr) : result pystr :=
  match header_text with
  | [] => Ok dflt
  | _ :: _ =>
      match py_getitem (splitlines header_text) 0 with
      | Ok line => Ok (strip line)
      | Raise e => Raise e
      end
  end.

(** [guests_max] as the save branch computes it from [data.get("guests_max")]. *)
Definition commit_guests_max (data : gmap pystr value) : result Z :=
  match dict_get data (lit "guests_max") VNone with
  | VInt n => Ok (Z.max 1 n)
  | raw =>
      let text := strip (if truthy raw then py_str raw else []) in
      if str_isdigit text then py_int (VStr text) else Ok 2
  end.

(** The media list the save branch writes: entries with a kind and a
    value, both stripped; the lines of a string as links. *)
Definition commit_media_items (data : gmap pystr value) : list media_item :=
  match or_empty_list (dict_get data (lit "media_items") VNone) with
  | VMedia l =>
      omap (λ item,
              let kind := strip (m_type item) in
              let val := strip (m_value item) in
              if bool_decide (kind ≠ []) && bool_decide (val ≠ [])
              then Some (MediaItem kind val) else None) l
  | VStr s => (λ line, MediaItem (lit "url") line) <$> nonblank_lines s
  | VInt _ | VNone => []
  end.

(** [[x["value"] for x in media_items if x.get("type") == "url"]] *)
Definition url_values (media_items : list media_item) : list pystr :=
  m_value <$> filter (λ x, m_type x = lit "url") media_items.

(** The column values of the row that the save branch writes. *)
Record commit_row := CommitRow {
  c_title : pystr;
  c_address_short : pystr;
  c_guests_max : Z;
  c_amenities : pystr;
  c_tags : list pystr;
  c_map_url : pystr;
  c_sort_order : Z;
  c_details : details;
  c_media_urls : list pystr
}.

(** Everything the save branch computes before it calls the database. *)
Definition commit_values (data : gmap pystr value) : result commit_row :=
  let tags :=
    (λ x, str_lower (strip x)) <$>
      filter (λ x, strip x ≠ [])
             (split_on 44%N (py_str (dict_get data (lit "tags") (VStr [])))) in
  let header_text := strip (py_str (dict_get data (lit "header_text") (VStr []))) in
  let short_desc := strip (py_str (dict_get data (lit "short_desc") (VStr []))) in
  let quote_desc := strip (py_str (dict_get data (lit "quote_desc") (VStr []))) in
  let features_text := strip (py_str (dict_get data (lit "features_text") (VStr []))) in
  match first_line_or header_text default_title with
  | Raise e => Raise e
  | Ok title =>
  let title := ellipsize 80 title in
  match first_line_or header_text default_address with
  | Raise e => Raise e
  | Ok address_short =>
  let address_short := ellipsize 120 address_short in
  match commit_guests_max data with
  | Raise e => Raise e
  | Ok guests_max =>
  let amenities := take 180 short_desc in
  match py_int (dict_get data (lit "sort_order") (VInt 0)) with
  | Raise e => Raise e
  | Ok sort_order =>
  let media_items := commit_media_items data in
  let media_urls := url_values media_items in
  let details_payload :=
    Details header_text short_desc quote_desc features_text media_items in
  Ok (CommitRow title address_short guests_max amenities tags
        (py_str (dict_get data (lit "map_url") (VStr [])))
        sort_order details_payload media_urls)
  end end end end.

(** [UPDATE apartments SET ... WHERE id=$11] *)
Definition update_apartment (id : Z) (c : commit_row) (rows : list apartment)
    : list apartment :=
  (λ a, if bool_decide (apt_id a = id)
        then Apartment (apt_id a) (c_title c) (c_address_short c) (c_guests_max c)
               (c_amenities c) (c_tags c) 0 [] (c_map_url c) (is_active a)
               (c_sort_order c) (Some (c_details c)) (c_media_urls c)
        else a) <$> rows.

(** The row of [INSERT INTO apartments(...) VALUES(...)], the other
    columns at their defaults. *)
Definition inserted_apartment (id : Z) (c : commit_row) : apartment :=
  Apartment id (c_title c) (c_address_short c) (c_guests_max c)
    (c_amenities c) (c_tags c) 0 [] (c_map_url c) true
    (c_sort_order c) (Some (c_details c)) (c_media_urls c).

(** [await db.execute(UPDATE ...)] *)
Definition db_update_apartment (id : Z) (c : commit_row) : M unit :=
  db_statement >>
  if negb (int4_ok (c_guests_max c) && int4_ok (c_sort_order c) && int8_ok id)
  then raise DataError
  else λ w, set_apartments (update_apartment id c (w_apartments w)) (w_next_apt_id w) w.

(** [await db.execute(INSERT ...)] *)
Definition db_insert_apartment (c : commit_row) : M unit :=
  db_statement >>
  if negb (int4_ok (c_guests_max c) && int4_ok (c_sort_order c))
  then raise DataError
  else λ w, set_apartments (w_apartments w ++ [inserted_apartment (w_next_apt_id w) c])
                           (w_next_apt_id w + 1) w.

(** The save branch. *)
Definition wizard_save : M unit :=
  let* data := get_data in
  let* c := lift (commit_values data) in
  let wizard_mode := dict_get data (lit "wizard_mode") (VStr (lit "add")) in
  let wizard_apt_id := dict_get data (lit "wizard_apartment_id") VNone in
  let* success_text :=
    if bool_decide (wizard_mode = VStr (lit "edit")) && truthy wizard_apt_id then
      let* id := lift (py_int wizard_apt_id) in
      db_update_apartment id c >>
      ret text_apartment_updated
    else
      db_insert_apartment c >>
      ret text_apartment_added in
  state_clear >>
  let* _ := answer (success_text ++ nl ++ text_preview_reuse)
                   (Some admin_apartments_menu_kb) in
  call_answer text_saved false.

(** The restart branch. *)
Definition wizard_restart : M unit :=
  let* current := get_data in
  let mode := dict_get current (lit "wizard_mode") (VStr (lit "add")) in
  let apt_id := dict_get current (lit "wizard_apartment_id") VNone in
  state_clear >>
  (if bool_decide (mode = VStr (lit "edit")) && truthy apt_id then
     let* id := lift (py_int apt_id) in
     let* apt := db_fetch_apartment id in
     match apt with
     | Some apt =>
         let defaults := apartment_wizard_defaults_from_apartment apt in
         update_data ([(lit "wizard_index", VInt 0);
                       (lit "wizard_mode", VStr (lit "edit"));
                       (lit "wizard_apartment_id", VInt id)] ++ defaults)
     | None =>
         update_data [(lit "wizard_index", VInt 0); (lit "wizard_mode", VStr (lit "add"))]
     end
   else
     update_data [(lit "wizard_index", VInt 0); (lit "wizard_mode", VStr (lit "add"))]) >>
  let* _ := answer text_start_over (Some wizard_text_kb) in
  wizard_show_step >>
  call_answer [] false.

(** [cb_apartment_wizard_preview] on the callback data [call_data], whose
    last part after a colon is the action. *)
Definition cb_apartment_wizard_preview (from_user : Z) (call_data : pystr) : M unit :=
  if bool_decide (from_user ∉ ADMIN_IDS) then call_answer text_no_access true
  else
    let action := default [] (last (split_on 58%N call_data)) in
    if bool_decide (action = lit "cancel") then
      state_clear >>
      let* _ := answer text_add_cancelled (Some admin_apartments_menu_kb) in
      call_answer [] false
    else if bool_decide (action = lit "restart") then wizard_restart
    else wizard_save.

(** *** Events *)

(** What reaches the wizard: its callbacks, and the messages the
    dispatcher hands to its two message handlers.  An [Incoming] message
    is one that no handler registered before them takes: it is not one of
    the commands. *)
Inductive event :=
  | AdminAptAdd (from_user : Z)
  | AdminAptWizard (from_user : Z) (id : Z)
  | WizardCancel
  | WizardPick (from_user : Z) (value : pystr)
  | WizardMediaDone (from_user : Z)
  | WizardPreview (from_user : Z) (call_data : pystr)
  | Incoming (msg : message).

(** The handler an event runs.  A message goes to the handler registered
    for the current state of the sender.  The properties of the wizard
    are stated on the handlers themselves; events and runs serve to state
    what holds whatever the order in which the handlers run. *)
Definition handle (ev : event) : M unit :=
  match ev with
  | AdminAptAdd u => cb_admin_apt_add u
  | AdminAptWizard u id => cb_admin_apt_wizard u id
  | WizardCancel => cb_apartment_wizard_cancel
  | WizardPick u v => cb_apartment_wizard_pick u v
  | WizardMediaDone u => cb_apartment_wizard_media_done u
  | WizardPreview u d => cb_apartment_wizard_preview u d
  | Incoming msg =>
      let* current := get_state in
      match current with
      | Some waiting_media => msg_apartment_wizard_media msg
      | Some waiting_text => msg_apartment_wizard_text msg
      | _ => ret tt
      end
  end.

(** The world after a sequence of events, each handled to its end. *)
Definition run (evs : list event) (w : world) : world :=
  foldl (λ w ev, exec (handle ev) w) w evs.

End handlers.



End Wizard.

(* ===================================================================== *)
(** * Part II: properties                                                 *)
(* ===================================================================== *)

(** ** The click throttle *)

Section throttle_properties.
Import Throttle.
Implicit Types (m : click_map) (uid now : Z) (key : string).

(** A trigger of a pair that was never accepted is accepted. *)
Lemma throttle_fresh m now uid key :
  m !! (uid, key) = None →
  throttle m now uid key = (false, <[(uid, key) := now]> m).
Proof. intros Hm. unfold throttle. by rewrite Hm. Qed.

(** Before the cooldown has elapsed the trigger is ignored and nothing
    is recorded. *)
Lemma throttle_ignored m now uid key last :
  m !! (uid, key) = Some last →
  now - last < THROTTLE_MICROS →
  throttle m now uid key = (true, m).
Proof.
  intros Hm Hlt. unfold throttle. rewrite Hm.
  destruct (Z.ltb_spec (now - last) THROTTLE_MICROS); [done | lia].
Qed.

(** From the cooldown on the trigger is accepted and its time recorded. *)
Lemma throttle_accepted m now uid key last :
  m !! (uid, key) = Some last →
  THROTTLE_MICROS ≤ now - last →
  throttle m now uid key = (false, <[(uid, key) := now]> m).
Proof.
  intros Hm Hge. unfold throttle. rewrite Hm.
  destruct (Z.ltb_spec (now - last) THROTTLE_MICROS); [lia | done].
Qed.

(** An accepted trigger records its own time for its pair, and only
    for it. *)
Lemma throttle_accept_records m now uid key m' :
  throttle m now uid key = (false, m') →
  m' = <[(uid, key) := now]> m.
Proof.
  unfold throttle. destruct (m !! (uid, key)) as [last|]; [|by intros [= <-]].
  destruct (now - last <? THROTTLE_MICROS); [done | by intros [= <-]].
Qed.

(** C8: after a trigger accepted at [t0], a trigger of the same user and
    action class at most 200 ms later is ignored without changing the
    recorded times, a trigger 700 ms or more after [t0] is accepted again
    (also when ignored triggers came in between, the window being counted
    from the last accepted one), and the times of the other pairs are
    left alone. *)
Theorem throttle_cooldown m uid key t0 m1 :
  throttle m t0 uid key = (false, m1) →
  m1 !! (uid, key) = Some t0
  ∧ (∀ t, t - t0 ≤ 200000 → throttle m1 t uid key = (true, m1))
  ∧ (∀ t, 700000 ≤ t - t0 →
       throttle m1 t uid key = (false, <[(uid, key) := t]> m1))
  ∧ (∀ t t', t - t0 ≤ 200000 → 700000 ≤ t' - t0 →
       throttle (throttle m1 t uid key).2 t' uid key
       = (false, <[(uid, key) := t']> m1))
  ∧ (∀ uid' key', (uid', key') ≠ (uid, key) → m1 !! (uid', key') = m !! (uid', key')).
Proof.
  intros Hacc. apply throttle_accept_records in Hacc as ->.
  assert (Hlast : <[(uid, key) := t0]> m !! (uid, key) = Some t0)
    by apply lookup_insert_eq.
  split_and!; [done | | | |].
  - intros t Ht. apply (throttle_ignored _ _ _ _ t0); [done|]. unfold THROTTLE_MICROS. lia.
  - intros t Ht. apply (throttle_accepted _ _ _ _ t0); [done|]. unfold THROTTLE_MICROS. lia.
  - intros t t' Ht Ht'.
    rewrite (throttle_ignored _ t _ _ t0); [|done|unfold THROTTLE_MICROS; lia].
    apply (throttle_accepted _ _ _ _ t0); [done|]. unfold THROTTLE_MICROS. lia.
  - intros uid' key' Hne. by rewrite lookup_insert_ne.
Qed.

(** The scenario of the specification: user 1 opens the catalog at time
    0, again 200 ms later and again 700 ms after the first time. *)
Lemma throttle_cooldown_witness :
  throttle ∅ 0 1 "catalog" = (false, {[ (1, "catalog"%string) := 0 ]})
  ∧ throttle {[ (1, "catalog"%string) := 0 ]} 200000 1 "catalog"
    = (true, {[ (1, "catalog"%string) := 0 ]})
  ∧ throttle {[ (1, "catalog"%string) := 0 ]} 700000 1 "catalog"
    = (false, <[ (1, "catalog"%string) := 700000 ]> {[ (1, "catalog"%string) := 0 ]}).
Proof.
  assert (H0 : throttle ∅ 0 1 "catalog" = (false, {[ (1, "catalog"%string) := 0 ]}))
    by reflexivity.
  destruct (throttle_cooldown ∅ 1 "catalog" 0 _ H0) as (_ & Hign & Hacc & _).
  split_and!; [exact H0 | apply Hign; lia | apply Hacc; lia].
Defined.

End throttle_properties.

(** *** The throttle, pair by pair *)

Section throttle_pairs.
Import Throttle.
Implicit Types (m : click_map) (u t : Z) (k : string).





End throttle_pairs.



(** ** The media carousel *)

Section carousel_properties.
Import Carousel.

Lemma clamp_index_bounds idx len :
  0 < len → 0 ≤ clamp_index idx len < len.
Proof. unfold clamp_index. lia. Qed.

(** An index already in range is kept; one below is moved to the first
    item, one above to the last. *)
Lemma clamp_index_cases idx len :
  0 < len →
  clamp_index idx len
  = if idx <? 0 then 0 else if len <=? idx then len - 1 else idx.
Proof.
  intros Hlen. unfold clamp_index.
  destruct (Z.ltb_spec idx 0), (Z.leb_spec len idx); lia.
Qed.

Lemma py_getitem_in_range {A} (l : list A) i :
  0 ≤ i < Z.of_nat (length l) →
  ∃ x, py_getitem l i = Ok x ∧ l !! Z.to_nat i = Some x.
Proof.
  intros Hi. unfold py_getitem.
  destruct (Z.ltb_spec i 0); [lia|].
  destruct (Z.leb_spec 0 i); [|lia].
  destruct (Z.ltb_spec i (Z.of_nat (length l))); [|lia]. simpl.
  destruct (lookup_lt_is_Some_2 l (Z.to_nat i)) as [x Hx]; [lia|].
  exists x. by rewrite Hx.
Qed.

(** C10: whatever index the callback data carries, for an apartment with
    a non-empty media list the handler reads the list at the index
    clamped into [0, length - 1], which holds an item: it shows that item
    and raises no [IndexError]. *)
Theorem cb_apartment_media_in_bounds table id idx page apt :
  head (filter (λ a, apt_id a = id) table) = Some apt →
  get_apartment_media_items apt ≠ [] →
  let items := get_apartment_media_items apt in
  let len := Z.of_nat (length items) in
  ∃ current nav,
    cb_apartment_media table id idx page
    = Ok (ShowMedia (clamp_index idx len) current nav)
    ∧ 0 ≤ clamp_index idx len ≤ len - 1
    ∧ items !! Z.to_nat (clamp_index idx len) = Some current.
Proof.
  intros Hrow Hne items len. unfold cb_apartment_media. rewrite Hrow.
  fold items. destruct items as [|x rest] eqn:Hitems; [done|].
  assert (Hlen : 0 < len) by (unfold len; simpl; lia).
  pose proof (clamp_index_bounds idx len Hlen) as Hb.
  destruct (py_getitem_in_range (x :: rest) (clamp_index idx len)) as (cur & Hget & Hlook);
    [done|].
  fold len. rewrite Hget. eexists cur, _. split_and!; [done | lia | lia | done].
Qed.

End carousel_properties.

(** The carousel of an apartment with two links, asked for the items
    -3 and 7. *)
Lemma cb_apartment_media_in_bounds_witness :
  let apt := Apartment 1 [] [] 2 [] [] 0 [] [] true 0 None [lit "a"; lit "b"] in
  (∃ current nav,
     Carousel.cb_apartment_media [apt] 1 (-3) 1 = Ok (Carousel.ShowMedia 0 current nav)
     ∧ Carousel.get_apartment_media_items apt !! 0%nat = Some current)
  ∧ (∃ current nav,
       Carousel.cb_apartment_media [apt] 1 7 1 = Ok (Carousel.ShowMedia 1 current nav)
       ∧ Carousel.get_apartment_media_items apt !! 1%nat = Some current).
Proof.
  intros apt. split.
  - destruct (cb_apartment_media_in_bounds [apt] 1 (-3) 1 apt) as (cur & nav & H1 & _ & H3);
      [reflexivity | discriminate |].
    exists cur, nav. split; [exact H1 | exact H3].
  - destruct (cb_apartment_media_in_bounds [apt] 1 7 1 apt) as (cur & nav & H1 & _ & H3);
      [reflexivity | discriminate |].
    exists cur, nav. split; [exact H1 | exact H3].
Defined.

(** *** The buttons of the carousel *)

Section carousel_navigation.
Import Carousel.


End carousel_navigation.



(** ** Welcome promo codes *)

Section promo_properties.
Import Promo.

#[local] Instance pc_le_total : Total pc_le.
Proof. intros a b. unfold pc_le. lia. Qed.

#[local] Instance pc_le_trans : Transitive pc_le.
Proof. intros a b c. unfold pc_le. lia. Qed.

(** [ORDER BY ... LIMIT 1] on a non-empty selection yields one of its
    rows, the least one. *)
Lemma head_merge_sort_some {A} (R : relation A) `{∀ x y, Decision (R x y)}
    `{!Total R, !Transitive R} (l : list A) x :
  x ∈ l →
  ∃ y, head (merge_sort R l) = Some y ∧ y ∈ l ∧ ∀ z, z ∈ l → R y z.
Proof.
  intros Hx.
  pose proof (merge_sort_Permutation R l) as Hperm.
  pose proof (StronglySorted_merge_sort R l) as Hsorted.
  destruct (merge_sort R l) as [|y rest] eqn:Hms.
  - rewrite <- Hperm in Hx. by apply not_elem_of_nil in Hx.
  - exists y. split_and!; [done | rewrite <- Hperm; left |].
    intros z Hz. rewrite <- Hperm in Hz.
    apply StronglySorted_cons in Hsorted as [Hall _].
    apply elem_of_cons in Hz as [->|Hz].
    + destruct (total R y y); done.
    + by eapply Forall_forall in Hall.
Qed.

Lemma filter_length_zero {A} (P : A → Prop) `{∀ x, Decision (P x)} (l : list A) :
  length (filter P l) = 0%nat ↔ ∀ x, x ∈ l → ¬ P x.
Proof.
  split.
  - intros Hlen x Hx HP. apply length_zero_iff_nil in Hlen.
    by apply (filter_nil_not_elem_of P l x Hlen HP).
  - intros Hall. apply length_zero_iff_nil.
    destruct (filter P l) as [|y rest] eqn:Hf; [done|].
    assert (Hy : y ∈ filter P l) by (rewrite Hf; left).
    apply list_elem_of_filter in Hy as [HP Hy]. by destruct (Hall y Hy).
Qed.

(** The code picked for a user is marked in the table afterwards, and
    the other rows are the ones of before. *)
Lemma assign_code_spec uid now id table :
  (∀ r, r ∈ table → pc_id r = id →
     PromoCode id (pc_code r) (pc_kind r) true (Some uid) (Some now)
       ∈ assign_code uid now id table)
  ∧ (∀ r', r' ∈ assign_code uid now id table →
       (pc_id r' = id ∧ pc_is_assigned r' = true ∧ pc_assigned_to r' = Some uid)
       ∨ (pc_id r' ≠ id ∧ r' ∈ table)).
Proof.
  unfold assign_code. split.
  - intros r Hr Hid. apply list_elem_of_fmap. exists r. split; [|done].
    rewrite bool_decide_eq_true_2; [|done]. by rewrite Hid.
  - intros r' Hr'. apply list_elem_of_fmap in Hr' as (r & -> & Hr).
    case_bool_decide; [left | right]; done.
Qed.

(** C9: a user to whom no welcome code is assigned, asking while an
    unassigned welcome code exists, is issued one of the unassigned
    welcome codes (the one with the least identifier); the table then
    holds that code marked as assigned to the user, its other rows are
    unchanged, and any further request of the user is answered that a
    code was already received and leaves the table as it is. *)
Theorem cb_welcome_once table uid now :
  (∀ r, r ∈ table → ¬ (pc_assigned_to r = Some uid ∧ pc_kind r = lit "welcome")) →
  (∃ r, r ∈ table ∧ pc_kind r = lit "welcome" ∧ pc_is_assigned r = false) →
  ∃ row table',
    cb_welcome table uid now = (CodeIssued (pc_code row), table')
    ∧ row ∈ table ∧ pc_kind row = lit "welcome" ∧ pc_is_assigned row = false
    ∧ PromoCode (pc_id row) (pc_code row) (lit "welcome") true (Some uid) (Some now) ∈ table'
    ∧ (∀ r', r' ∈ table' →
         (pc_id r' = pc_id row ∧ pc_is_assigned r' = true ∧ pc_assigned_to r' = Some uid)
         ∨ r' ∈ table)
    ∧ (∀ now', cb_welcome table' uid now' = (AlreadyReceived, table')).
Proof.
  intros Hnone (r0 & Hr0 & Hkind0 & Hfree0).
  unfold cb_welcome.
  rewrite bool_decide_eq_false_2; last first.
  { intros Hne. apply Hne. by apply filter_length_zero. }
  destruct (head_merge_sort_some pc_le
              (filter (λ r, pc_kind r = lit "welcome" ∧ pc_is_assigned r = false) table) r0)
    as (row & Hhead & Hrow & _).
  { by apply list_elem_of_filter. }
  rewrite Hhead.
  apply list_elem_of_filter in Hrow as [[Hkind Hfree] Hrow].
  destruct (assign_code_spec uid now (pc_id row) table) as [Hmark Hrest].
  pose proof (Hmark row Hrow eq_refl) as Hin. rewrite Hkind in Hin.
  exists row, (assign_code uid now (pc_id row) table).
  split_and!; try done.
  - intros r' Hr'. destruct (Hrest r' Hr') as [?|[_ ?]]; [by left | by right].
  - intros now'. rewrite bool_decide_eq_true_2; [done|].
    intros Hzero. eapply filter_length_zero in Hzero; [|exact Hin]. by apply Hzero.
Qed.

End promo_properties.

(** Two welcome codes and one manual code, none assigned: user 42 asks
    twice. *)
Lemma cb_welcome_once_witness :
  let table := [ PromoCode 2 (lit "W2") (lit "welcome") false None None;
                 PromoCode 1 (lit "M1") (lit "manual") false None None;
                 PromoCode 3 (lit "W3") (lit "welcome") false None None ] in
  ∃ row table',
    Promo.cb_welcome table 42 1000 = (Promo.CodeIssued (pc_code row), table')
    ∧ PromoCode (pc_id row) (pc_code row) (lit "welcome") true (Some 42) (Some 1000) ∈ table'
    ∧ Promo.cb_welcome table' 42 2000 = (Promo.AlreadyReceived, table').
Proof.
  intros table.
  destruct (cb_welcome_once table 42 1000) as (row & table' & H1 & _ & _ & _ & H2 & _ & H3).
  - intros r Hr [Hto _]. unfold table in Hr.
    repeat (apply elem_of_cons in Hr as [->|Hr]; [discriminate Hto|]).
    by apply not_elem_of_nil in Hr.
  - exists (PromoCode 2 (lit "W2") (lit "welcome") false None None).
    split_and!; [left | reflexivity | reflexivity].
  - exists row, table'. split_and!; [exact H1 | exact H2 | apply H3].
Defined.

(** *** Welcome codes, case by case *)

Section promo_cases.
Import Promo.
#[local] Existing Instance pc_le_total.
#[local] Existing Instance pc_le_trans.


End promo_cases.


(** ** The catalog query *)

Section catalog_properties.
Context `{B : Builtins}.
Import Catalog.

#[local] Instance apt_le_total : Total apt_le.
Proof. intros a b. unfold apt_le. lia. Qed.

#[local] Instance apt_le_trans : Transitive apt_le.
Proof. intros a b c. unfold apt_le. lia. Qed.

(** The three buckets and their bounds; any other value filters nothing. *)
Lemma guests_bound_spec g bound :
  guests_bound g = Some bound ↔
    (g = Some (lit "1-2") ∧ bound = 2)
    ∨ (g = Some (lit "3-4") ∧ bound = 4)
    ∨ (g = Some (lit "5+") ∧ bound = 5).
Proof.
  split.
  - unfold guests_bound. destruct g as [g|]; [|done].
    repeat case_bool_decide; intros [= <-]; subst; auto 6.
  - intros [[-> ->] | [[-> ->] | [-> ->]]]; reflexivity.
Qed.

Lemma normalized_tags_elem (ftags : gset pystr) x :
  x ∈ normalized_tags ftags ↔
    ∃ t, t ∈ ftags ∧ strip t ≠ [] ∧ x = str_lower (strip t).
Proof.
  unfold normalized_tags. rewrite list_elem_of_fmap. split.
  - intros (t & -> & Ht). apply list_elem_of_filter in Ht as [Hne Ht].
    apply elem_of_elements in Ht. eauto.
  - intros (t & Ht & Hne & ->). exists t. split; [done|].
    apply list_elem_of_filter. split; [done|]. by apply elem_of_elements.
Qed.

Lemma normalized_tags_nil (ftags : gset pystr) :
  normalized_tags ftags = [] ↔ ∀ t, t ∈ ftags → strip t = [].
Proof.
  split.
  - intros Hnil t Ht. destruct (decide (strip t = [])) as [|Hne]; [done|].
    assert (Hin : str_lower (strip t) ∈ normalized_tags ftags)
      by (apply normalized_tags_elem; eauto).
    rewrite Hnil in Hin. by apply not_elem_of_nil in Hin.
  - intros Hall. destruct (normalized_tags ftags) as [|x rest] eqn:Hn; [done|].
    assert (Hx : x ∈ normalized_tags ftags) by (rewrite Hn; left).
    apply normalized_tags_elem in Hx as (t & Ht & Hne & _). by destruct (Hne (Hall t Ht)).
Qed.

(** What the [WHERE] clause selects. *)
Lemma catalog_where_spec f apt :
  catalog_where f apt = true ↔
    is_active apt = true
    ∧ (∀ bound, guests_bound (f_guests f) = Some bound → bound ≤ guests_max apt)
    ∧ ((∀ t, t ∈ f_tags f → strip t = [])
       ∨ ∃ tag t, tag ∈ tags apt ∧ t ∈ f_tags f ∧ strip t ≠ []
                  ∧ sql_lower tag = str_lower (strip t)).
Proof.
  unfold catalog_where, catalog_conditions.
  assert (Htags : ∀ l : list pystr,
            existsb (λ tag, bool_decide (sql_lower tag ∈ l)) (tags apt) = true
            ↔ ∃ tag, tag ∈ tags apt ∧ sql_lower tag ∈ l).
  { intros l. rewrite existsb_exists. split.
    - intros (tag & Hin & Hdec). apply bool_decide_eq_true in Hdec.
      exists tag. by rewrite list_elem_of_In.
    - intros (tag & Hin & Hl). exists tag. rewrite <- list_elem_of_In.
      split; [done | by apply bool_decide_eq_true]. }
  pose proof (normalized_tags_nil (f_tags f)) as Hnil.
  pose proof (normalized_tags_elem (f_tags f)) as Helem.
  destruct (normalized_tags (f_tags f)) as [|x rest] eqn:Hn.
  - assert (Hblank : ∀ t, t ∈ f_tags f → strip t = []) by by apply Hnil.
    destruct (guests_bound (f_guests f)) as [bound|]; simpl;
      rewrite ?andb_true_r, ?andb_true_iff, ?Z.leb_le.
    + split; [intros [? ?]; split_and!; [done | by intros ? [= <-] | by left]|].
      intros (? & Hb & _). split; [done | by apply Hb].
    + split; [intros ?; split_and!; [done | done | by left] | by intros (? & _)].
  - assert (Hsome : (∃ tag, tag ∈ tags apt ∧ sql_lower tag ∈ x :: rest)
                    ↔ ((∀ t, t ∈ f_tags f → strip t = [])
                       ∨ ∃ tag t, tag ∈ tags apt ∧ t ∈ f_tags f ∧ strip t ≠ []
                                  ∧ sql_lower tag = str_lower (strip t))).
    { split.
      - intros (tag & Hin & Hl). apply Helem in Hl as (t & ? & ? & ?). right. eauto 10.
      - intros [Hall | (tag & t & ? & ? & ? & Heq)].
        + apply Hnil in Hall. discriminate.
        + exists tag. split; [done|]. apply Helem. eauto. }
    destruct (guests_bound (f_guests f)) as [bound|]; simpl;
      rewrite ?andb_true_r, ?andb_true_iff, ?Z.leb_le, Htags, Hsome.
    + split; [intros (? & ? & ?); split_and!; [done | by intros ? [= <-] | done]|].
      intros (? & Hb & ?). split_and!; [done | by apply Hb | done].
    + split; [intros [? ?]; split_and!; done | intros (? & _ & ?); done].
Qed.

(** The rows of the selection are the rows of the table that the [WHERE]
    clause keeps, in the order of [sort_order] then [id]. *)
Lemma catalog_selection_sorted table f :
  StronglySorted apt_le (catalog_selection table f)
  ∧ catalog_selection table f ≡ₚ filter (λ apt, catalog_where f apt = true) table.
Proof.
  unfold catalog_selection. split.
  - apply StronglySorted_merge_sort; apply _.
  - apply merge_sort_Permutation.
Qed.

Lemma catalog_selection_elem table f apt :
  apt ∈ catalog_selection table f ↔ apt ∈ table ∧ catalog_where f apt = true.
Proof.
  destruct (catalog_selection_sorted table f) as [_ Hperm].
  rewrite Hperm, list_elem_of_filter. tauto.
Qed.

Lemma bigint_arg_spec n : bigint_arg n = true ↔ - BIGINT_MAX - 1 ≤ n ≤ BIGINT_MAX.
Proof. unfold bigint_arg. rewrite andb_true_iff, !Z.leb_le. tauto. Qed.

(** A page whose limit and offset are in the range of [bigint] is a slice
    of the selection. *)
Lemma catalog_query_page table f page page_size :
  1 ≤ page → 0 ≤ page_size ≤ BIGINT_MAX → (page - 1) * page_size ≤ BIGINT_MAX →
  catalog_query table f page page_size
  = Some (take (Z.to_nat page_size)
               (drop (Z.to_nat (page - 1) * Z.to_nat page_size) (catalog_selection table f)),
          Z.of_nat (length (catalog_selection table f))).
Proof.
  intros Hpage Hsize Hoffset. unfold catalog_query.
  assert (0 ≤ (page - 1) * page_size) by nia.
  rewrite (proj2 (bigint_arg_spec page_size)) by (unfold BIGINT_MAX in *; lia).
  rewrite (proj2 (bigint_arg_spec _)) by (unfold BIGINT_MAX in *; lia). simpl.
  destruct (Z.ltb_spec page_size 0); [lia|].
  destruct (Z.ltb_spec ((page - 1) * page_size) 0); [lia|]. simpl.
  destruct (catalog_selection_sorted table f) as [_ Hperm].
  rewrite (Permutation_length Hperm).
  do 3 f_equal. rewrite <- Z2Nat.inj_mul by lia. done.
Qed.

(** Consecutive slices of a list put together are its prefix. *)
Lemma concat_slices {A} (l : list A) (size n : nat) :
  concat ((λ i, take size (drop (i * size) l)) <$> seq 0 n) = take (n * size) l.
Proof.
  induction n as [|n IH]; [done|].
  rewrite seq_S, fmap_app, concat_app, IH. simpl.
  rewrite app_nil_r, take_take_drop. f_equal. lia.
Qed.

Lemma page_count_covers total page_size :
  0 ≤ total → 0 < page_size →
  0 ≤ page_count total page_size
  ∧ total ≤ page_count total page_size * page_size
  ∧ (page_count total page_size - 1) * page_size < total + (if total =? 0 then 1 else 0).
Proof.
  intros Htotal Hsize. unfold page_count.
  pose proof (Z.div_mod (total + page_size - 1) page_size ltac:(lia)) as Hdm.
  pose proof (Z.mod_pos_bound (total + page_size - 1) page_size Hsize) as Hmod.
  assert (0 ≤ (total + page_size - 1) / page_size) by (apply Z.div_pos; lia).
  destruct (Z.eqb_spec total 0); split_and!; nia.
Qed.

(** The item [apt] is on some page of the result of the query. *)
Definition in_catalog_result (table : list apartment) (f : filters)
    (page_size : Z) (apt : apartment) : Prop :=
  ∃ page rows total,
    1 ≤ page ∧ catalog_query table f page page_size = Some (rows, total) ∧ apt ∈ rows.

(** A query that returns was given a limit and an offset in range. *)
Lemma catalog_query_some table f page page_size r :
  catalog_query table f page page_size = Some r →
  0 ≤ page_size ≤ BIGINT_MAX ∧ 0 ≤ (page - 1) * page_size ≤ BIGINT_MAX.
Proof.
  unfold catalog_query.
  destruct (bigint_arg page_size) eqn:Hsize; [|done].
  destruct (bigint_arg ((page - 1) * page_size)) eqn:Hoffset; [|done]. simpl.
  apply bigint_arg_spec in Hsize, Hoffset.
  destruct (Z.ltb_spec page_size 0); [done|].
  destruct (Z.ltb_spec ((page - 1) * page_size) 0); [done|]. lia.
Qed.

Lemma catalog_selection_length table f :
  (length (catalog_selection table f) ≤ length table)%nat.
Proof.
  destruct (catalog_selection_sorted table f) as [_ Hperm].
  rewrite (Permutation_length Hperm). apply length_filter.
Qed.

Lemma in_catalog_result_selection table f page_size apt :
  0 < page_size ≤ BIGINT_MAX →
  Z.of_nat (length table) ≤ BIGINT_MAX →
  in_catalog_result table f page_size apt ↔ apt ∈ catalog_selection table f.
Proof.
  intros Hsize Hrows. split.
  - intros (page & rows & total & Hpage & Hq & Hin).
    destruct (catalog_query_some _ _ _ _ _ Hq) as [_ Hoffset].
    rewrite catalog_query_page in Hq by lia. injection Hq as <- _.
    apply elem_of_take in Hin as (i & Hi & _).
    rewrite lookup_drop in Hi. by eapply list_elem_of_lookup_2.
  - intros Hin. apply list_elem_of_lookup in Hin as [i Hi].
    set (size := Z.to_nat page_size).
    assert (Hpos : (0 < size)%nat) by (unfold size; lia).
    assert (Hi' : (i < length table)%nat).
    { apply lookup_lt_Some in Hi. pose proof (catalog_selection_length table f). lia. }
    assert (Hoffset : (Z.of_nat (i / size) + 1 - 1) * page_size ≤ BIGINT_MAX).
    { pose proof (Nat.div_mod_eq i size) as Hdm.
      assert (Z.of_nat (i / size) * page_size ≤ Z.of_nat i); [|lia].
      replace page_size with (Z.of_nat size) by (unfold size; lia).
      rewrite <- Nat2Z.inj_mul. apply Nat2Z.inj_le. lia. }
    eexists (Z.of_nat (i / size) + 1), _, _. split; [lia|].
    split; [apply catalog_query_page; lia|].
    apply list_elem_of_lookup. exists (i `mod` size)%nat.
    rewrite lookup_take_lt by (apply Nat.mod_upper_bound; lia).
    rewrite lookup_drop. rewrite <- Hi. f_equal.
    replace (Z.to_nat (Z.of_nat (i / size) + 1 - 1)) with (i / size)%nat by lia.
    fold size. pose proof (Nat.div_mod_eq i size). lia.
Qed.

(** C6, as the code has it: for a page size and a table within the range
    of [bigint], the rows the query ranges over are the filtered rows of
    the table ordered by [sort_order] and then [id]; page [p] (counted
    from 1) is the slice of [page_size] rows after the first
    [(p - 1) * page_size]; the pages 1 to [ceil(total / page_size)] put
    together are exactly those rows, in order; a page past the last one
    whose offset is still in the range of [bigint] is the empty list,
    returned with the total and without an error; and a page whose offset
    is beyond that range is refused with an error. *)
Theorem catalog_pagination table f page_size :
  0 < page_size ≤ BIGINT_MAX →
  Z.of_nat (length table) ≤ BIGINT_MAX →
  let selection := catalog_selection table f in
  let total := Z.of_nat (length selection) in
  let page_rows page := default [] (fst <$> catalog_query table f page page_size) in
  StronglySorted apt_le selection
  ∧ selection ≡ₚ filter (λ apt, catalog_where f apt = true) table
  ∧ (∀ page, 1 ≤ page → (page - 1) * page_size ≤ BIGINT_MAX →
       catalog_query table f page page_size
       = Some (take (Z.to_nat page_size)
                    (drop (Z.to_nat ((page - 1) * page_size)) selection), total))
  ∧ concat (page_rows <$> (Z.of_nat <$> seq 1 (Z.to_nat (page_count total page_size))))
    = selection
  ∧ (∀ page, page_count total page_size < page → (page - 1) * page_size ≤ BIGINT_MAX →
       catalog_query table f page page_size = Some ([], total))
  ∧ (∀ page, BIGINT_MAX < (page - 1) * page_size →
       catalog_query table f page page_size = None).
Proof.
  intros Hsize Hrows selection total page_rows.
  destruct (catalog_selection_sorted table f) as [Hsorted Hperm].
  destruct (page_count_covers total page_size) as (Hcount0 & Hcover & Hlast); [lia | lia |].
  assert (Htotal : total ≤ BIGINT_MAX).
  { pose proof (catalog_selection_length table f). unfold total, selection. lia. }
  split_and!; [done | done | | | |].
  - intros page Hpage Hoffset. rewrite catalog_query_page by lia.
    do 3 f_equal. rewrite Z2Nat.inj_mul by lia. done.
  - rewrite <- fmap_S_seq, <- !list_fmap_compose.
    rewrite (list_fmap_ext _ (λ i, take (Z.to_nat page_size)
                                     (drop (i * Z.to_nat page_size) selection))).
    + rewrite concat_slices. apply take_ge. apply Nat2Z.inj_le.
      rewrite Nat2Z.inj_mul, !Z2Nat.id by lia. exact Hcover.
    + intros i x Hx. apply lookup_seq in Hx as [-> Hlt]. unfold page_rows. simpl.
      assert (Hoffset : (Z.of_nat (S i) - 1) * page_size ≤ BIGINT_MAX).
      { assert (Z.of_nat i ≤ page_count total page_size - 1) by lia.
        assert (Z.of_nat i * page_size ≤ (page_count total page_size - 1) * page_size)
          by (apply Z.mul_le_mono_nonneg_r; lia).
        destruct (total =? 0); lia. }
      rewrite catalog_query_page by lia. simpl. do 3 f_equal. lia.
  - intros page Hpage Hoffset. rewrite catalog_query_page by lia.
    rewrite drop_ge; [by rewrite take_nil|].
    fold selection. apply Nat2Z.inj_le.
    rewrite Nat2Z.inj_mul, !Z2Nat.id by lia. fold total. nia.
  - intros page Hoffset. unfold catalog_query.
    destruct (bigint_arg ((page - 1) * page_size)) eqn:Hok.
    + apply bigint_arg_spec in Hok. lia.
    + by rewrite andb_false_r.
Qed.

(** C5, as the code has it: an item is in the result of the query exactly
    when it is a row of the table that is active, whose [guests_max] is
    at least 2, 4 or 5 when the filter names the bucket "1-2", "3-4" or
    "5+", and, unless every tag of the filter is blank, one of whose tags
    is equal in lower case to a tag of the filter stripped of its
    surrounding blanks.  The page size and the number of rows of the
    table are in the range of [bigint], as the limit and the count of
    rows of the statements are. *)
Theorem catalog_filter_iff table f page_size apt :
  0 < page_size ≤ BIGINT_MAX →
  Z.of_nat (length table) ≤ BIGINT_MAX →
  in_catalog_result table f page_size apt ↔
    apt ∈ table
    ∧ is_active apt = true
    ∧ (f_guests f = Some (lit "1-2") → 2 ≤ guests_max apt)
    ∧ (f_guests f = Some (lit "3-4") → 4 ≤ guests_max apt)
    ∧ (f_guests f = Some (lit "5+") → 5 ≤ guests_max apt)
    ∧ ((∀ t, t ∈ f_tags f → strip t = [])
       ∨ ∃ tag t, tag ∈ tags apt ∧ t ∈ f_tags f ∧ strip t ≠ []
                  ∧ sql_lower tag = str_lower (strip t)).
Proof.
  intros Hsize Hrows.
  rewrite in_catalog_result_selection, catalog_selection_elem, catalog_where_spec by done.
  split.
  - intros (? & ? & Hb & ?). split_and!; try done.
    all: intros Hg; apply Hb; apply guests_bound_spec; auto.
  - intros (? & ? & H2 & H4 & H5 & ?). split_and!; try done.
    intros bound [[? ->] | [[? ->] | [? ->]]]%guests_bound_spec; auto.
Qed.

End catalog_properties.

(** A small catalog: six active flats and one that is switched off. *)
Module CatalogExample.
Import Catalog.

Definition flat (id : Z) (guests : Z) (tags : list pystr) (active : bool)
    (order : Z) : apartment :=
  Apartment id (lit "Flat") (lit "Street") guests [] tags 0 [] [] active order None [].

Definition table : list apartment := [
  flat 1 2 [lit "Parking"] true 0;
  flat 2 4 [lit "quiet"; lit "parking"] true 0;
  flat 3 6 [] true (-1);
  flat 4 3 [lit "View"] true 5;
  flat 5 5 [lit "quiet"] false 0;
  flat 6 2 [] true 0;
  flat 7 8 [lit "parking"] true 2
].

Definition no_filter : filters := Filters None ∅.

(** Up to four guests, with parking. *)
Definition parking_for_four : filters := Filters (Some (lit "3-4")) {[ lit " parking " ]}.

(** No bucket, and a tag that is blank. *)
Definition blank_tag : filters := Filters None {[ lit " " ]}.

End CatalogExample.

Section catalog_examples.
Import Catalog CatalogExample AsciiBuiltins.

Example catalog_first_page :
  catalog_query table no_filter 1 PAGE_SIZE
  = Some ([flat 3 6 [] true (-1); flat 1 2 [lit "Parking"] true 0;
           flat 2 4 [lit "quiet"; lit "parking"] true 0; flat 6 2 [] true 0;
           flat 7 8 [lit "parking"] true 2], 6).
Proof. vm_compute. reflexivity. Qed.

Example catalog_second_page :
  catalog_query table no_filter 2 PAGE_SIZE = Some ([flat 4 3 [lit "View"] true 5], 6).
Proof. vm_compute. reflexivity. Qed.

Example catalog_third_page :
  catalog_query table no_filter 3 PAGE_SIZE = Some ([], 6).
Proof. vm_compute. reflexivity. Qed.

(** Page 0 asks for a negative [OFFSET], which the server rejects. *)
Example catalog_page_zero :
  catalog_query table no_filter 0 PAGE_SIZE = None.
Proof. vm_compute. reflexivity. Qed.

(** The bucket "3-4" keeps the flats for four guests and more. *)
Example catalog_parking_for_four :
  catalog_query table parking_for_four 1 PAGE_SIZE
  = Some ([flat 2 4 [lit "quiet"; lit "parking"] true 0; flat 7 8 [lit "parking"] true 2], 2).
Proof. vm_compute. reflexivity. Qed.

(** A filter whose only tag is blank filters nothing. *)
Example catalog_blank_tag :
  catalog_query table blank_tag 2 PAGE_SIZE = Some ([flat 4 3 [lit "View"] true 5], 6).
Proof. vm_compute. reflexivity. Qed.

(** A page whose offset is beyond the range of [bigint] is refused by the
    driver. *)
Example catalog_page_out_of_range :
  catalog_query table no_filter (2 ^ 63) PAGE_SIZE = None.
Proof. vm_compute. reflexivity. Qed.

Lemma catalog_pagination_witness :
  0 < PAGE_SIZE ≤ BIGINT_MAX
  ∧ Z.of_nat (length table) ≤ BIGINT_MAX
  ∧ concat ((λ page, default [] (fst <$> catalog_query table no_filter page PAGE_SIZE))
              <$> (Z.of_nat <$> seq 1 (Z.to_nat (page_count 6 PAGE_SIZE))))
    = catalog_selection table no_filter
  ∧ catalog_query table no_filter 3 PAGE_SIZE = Some ([], 6)
  ∧ catalog_query table no_filter (2 ^ 63) PAGE_SIZE = None.
Proof.
  assert (Hsize : 0 < PAGE_SIZE ≤ BIGINT_MAX) by (unfold PAGE_SIZE, BIGINT_MAX; lia).
  assert (Hrows : Z.of_nat (length table) ≤ BIGINT_MAX) by (unfold BIGINT_MAX; simpl; lia).
  destruct (catalog_pagination table no_filter PAGE_SIZE Hsize Hrows)
    as (_ & _ & _ & Hcat & Hpast & Hrange).
  split; [exact Hsize|]. split; [exact Hrows|]. split; [exact Hcat|]. split.
  - apply Hpast; [vm_compute; reflexivity | vm_compute; discriminate].
  - apply Hrange. vm_compute. reflexivity.
Defined.

(** C6 as the specification words it fails on a page whose offset is
    beyond the range of [bigint]: with six rows and five rows to a page
    the last page is page 2, and page 2^63, which is past it, is not
    answered with the empty list: the call raises. *)
Lemma catalog_pagination_out_of_range_counterexample :
  ¬ (∀ page, page_count 6 PAGE_SIZE < page →
             catalog_query table no_filter page PAGE_SIZE = Some ([], 6)).
Proof.
  intros Hclaim. specialize (Hclaim (2 ^ 63)).
  rewrite catalog_page_out_of_range in Hclaim.
  assert (Hpast : page_count 6 PAGE_SIZE < 2 ^ 63) by (vm_compute; reflexivity).
  discriminate (Hclaim Hpast).
Qed.

Lemma catalog_filter_iff_witness :
  0 < PAGE_SIZE ≤ BIGINT_MAX
  ∧ Z.of_nat (length table) ≤ BIGINT_MAX
  ∧ in_catalog_result table parking_for_four PAGE_SIZE (flat 7 8 [lit "parking"] true 2).
Proof.
  assert (Hsize : 0 < PAGE_SIZE ≤ BIGINT_MAX) by (unfold PAGE_SIZE, BIGINT_MAX; lia).
  assert (Hrows : Z.of_nat (length table) ≤ BIGINT_MAX) by (unfold BIGINT_MAX; simpl; lia).
  split; [exact Hsize|]. split; [exact Hrows|].
  apply (catalog_filter_iff table parking_for_four PAGE_SIZE _ Hsize Hrows).
  split_and!.
  - unfold table. do 6 right. left.
  - reflexivity.
  - intros [=].
  - intros _. simpl. lia.
  - intros [=].
  - right. exists (lit "parking"), (lit " parking ").
    split_and!; [left | simpl; set_solver | by vm_compute | by vm_compute].
Defined.

(** C5 as the specification words it fails on a filter whose only tag is
    blank: the tag set of the filter is not empty and flat 6 has no tag at
    all, yet the query returns flat 6. *)
Lemma catalog_filter_blank_tag_counterexample :
  ¬ (in_catalog_result table blank_tag PAGE_SIZE (flat 6 2 [] true 0) ↔
       flat 6 2 [] true 0 ∈ table
       ∧ is_active (flat 6 2 [] true 0) = true
       ∧ (f_guests blank_tag = Some (lit "1-2") → 2 ≤ guests_max (flat 6 2 [] true 0))
       ∧ (f_guests blank_tag = Some (lit "3-4") → 4 ≤ guests_max (flat 6 2 [] true 0))
       ∧ (f_guests blank_tag = Some (lit "5+") → 5 ≤ guests_max (flat 6 2 [] true 0))
       ∧ (f_tags blank_tag = ∅
          ∨ ∃ tag t, tag ∈ tags (flat 6 2 [] true 0) ∧ t ∈ f_tags blank_tag
                     ∧ str_lower tag = str_lower t)).
Proof.
  intros [Hclaim _].
  assert (Hin : in_catalog_result table blank_tag PAGE_SIZE (flat 6 2 [] true 0)).
  { exists 1, [flat 3 6 [] true (-1); flat 1 2 [lit "Parking"] true 0;
               flat 2 4 [lit "quiet"; lit "parking"] true 0; flat 6 2 [] true 0;
               flat 7 8 [lit "parking"] true 2], 6.
    split; [lia|]. split; [vm_compute; reflexivity|].
    do 3 right. left. }
  destruct (Hclaim Hin) as (_ & _ & _ & _ & _ & [Hempty | (tag & t & Htag & _)]).
  - assert (Hl : lit " " ∈ f_tags blank_tag) by (simpl; set_solver).
    rewrite Hempty in Hl. by apply not_elem_of_empty in Hl.
  - simpl in Htag. by apply not_elem_of_nil in Htag.
Qed.

End catalog_examples.

(** ** The apartment wizard *)

Import Wizard.

(** *** Reasoning about handlers *)

(** [wp m Q w]: run from [w], the handler [m] ends with a result and a
    world that satisfy [Q]. *)
Definition wp {A} (m : M A) (Q : result A → world → Prop) (w : world) : Prop :=
  Q (outcome m w) (exec m w).

Section wp_rules.
Context {A C : Type}.
Implicit Types (w : world).

Lemma wp_bind (m : M A) (f : A → M C) Q w :
  wp m (λ r w1, match r with
                | Ok a => wp (f a) Q w1
                | Raise e => Q (Raise e) w1
                end) w →
  wp (bind m f) Q w.
Proof. unfold wp, outcome, exec, bind. by destruct (m w) as [[?|?] ?]. Qed.

Lemma wp_mono (m : M A) (Q Q' : result A → world → Prop) w :
  wp m Q w → (∀ r w', Q r w' → Q' r w') → wp m Q' w.
Proof. unfold wp. auto. Qed.

Lemma wp_elim (m : M A) (Q : result A → world → Prop) w :
  wp m Q w → Q (outcome m w) (exec m w).
Proof. done. Qed.

Lemma wp_ret (a : A) (Q : result A → world → Prop) w : Q (Ok a) w → wp (ret a) Q w.
Proof. done. Qed.

Lemma wp_lift (r : result A) (Q : result A → world → Prop) w : Q r w → wp (lift r) Q w.
Proof. done. Qed.

Lemma wp_raise e (Q : result A → world → Prop) w : Q (Raise e) w → wp (raise e) Q w.
Proof. done. Qed.

End wp_rules.

Section wp_primitives.
Implicit Types (w : world).

Lemma wp_get_data Q w : Q (Ok (w_data w)) w → wp get_data Q w.
Proof. done. Qed.

Lemma wp_get_state Q w : Q (Ok (w_state w)) w → wp get_state Q w.
Proof. done. Qed.

Lemma wp_update_data kv Q w :
  Q (Ok tt) (with_fsm (w_state w) (foldl (λ d p, <[p.1 := p.2]> d) (w_data w) kv) w) →
  wp (update_data kv) Q w.
Proof. done. Qed.

Lemma wp_set_state s Q w :
  Q (Ok tt) (with_fsm (Some s) (w_data w) w) → wp (set_state s) Q w.
Proof. done. Qed.

Lemma wp_state_clear Q w : Q (Ok tt) (with_fsm None ∅ w) → wp state_clear Q w.
Proof. done. Qed.

Lemma wp_answer text kb Q w :
  Q (Ok (w_next_message_id w))
    (World (w_state w) (w_data w) (w_apartments w) (w_next_apt_id w) (w_db_faults w)
           (w_outbox w ++ [SendMessage text kb]) (w_next_message_id w + 1)) →
  wp (answer text kb) Q w.
Proof. done. Qed.

Lemma wp_delete_message id Q w :
  Q (Ok tt) (emit (DeleteMessage id) w) → wp (delete_message id) Q w.
Proof. done. Qed.

Lemma wp_call_answer text alert Q w :
  Q (Ok tt) (emit (AnswerCallback text alert) w) → wp (call_answer text alert) Q w.
Proof. done. Qed.

End wp_primitives.

(** *** The store *)

(** Nothing but the list of faults to come differs. *)
Definition untouched (w w' : world) : Prop :=
  w_state w' = w_state w ∧ w_data w' = w_data w
  ∧ w_apartments w' = w_apartments w ∧ w_next_apt_id w' = w_next_apt_id w
  ∧ w_outbox w' = w_outbox w ∧ w_next_message_id w' = w_next_message_id w.

(** The store was written to, and nothing else but the faults differs. *)
Definition stored (rows : list apartment) (next_id : Z) (w w' : world) : Prop :=
  w_state w' = w_state w ∧ w_data w' = w_data w
  ∧ w_apartments w' = rows ∧ w_next_apt_id w' = next_id
  ∧ w_outbox w' = w_outbox w ∧ w_next_message_id w' = w_next_message_id w.

Section wp_store.
Implicit Types (w : world).

Lemma untouched_refl w : untouched w w.
Proof. done. Qed.

Lemma wp_db_fetch_apartment id Q w :
  (∀ w', untouched w w' → ∀ e, Q (Raise e) w') →
  (∀ w', untouched w w' →
         Q (Ok (head (filter (λ a, apt_id a = id) (w_apartments w)))) w') →
  wp (db_fetch_apartment id) Q w.
Proof.
  intros Hraise Hok.
  unfold wp, outcome, exec, db_fetch_apartment, bind, db_statement, raise.
  destruct w as [? ? ? ? [|[|] ?] ? ?]; simpl; [| by apply Hraise |];
    (destruct (negb _); simpl; [by apply Hraise | by apply Hok]).
Qed.

Lemma wp_db_update_apartment id c Q w :
  (∀ e w', untouched w w' → Q (Raise e) w') →
  (∀ w', stored (update_apartment id c (w_apartments w)) (w_next_apt_id w) w w' →
         Q (Ok tt) w') →
  wp (db_update_apartment id c) Q w.
Proof.
  intros Hraise Hok.
  unfold wp, outcome, exec, db_update_apartment, bind, db_statement, raise, set_apartments.
  destruct w as [? ? ? ? [|[|] ?] ? ?]; simpl; [| by apply Hraise |];
    (destruct (negb _); simpl; [by apply Hraise | by apply Hok]).
Qed.

Lemma wp_db_insert_apartment c Q w :
  (∀ e w', untouched w w' → Q (Raise e) w') →
  (∀ w', stored (w_apartments w ++ [inserted_apartment (w_next_apt_id w) c])
                (w_next_apt_id w + 1) w w' →
         Q (Ok tt) w') →
  wp (db_insert_apartment c) Q w.
Proof.
  intros Hraise Hok.
  unfold wp, outcome, exec, db_insert_apartment, bind, db_statement, raise, set_apartments.
  destruct w as [? ? ? ? [|[|] ?] ? ?]; simpl; [| by apply Hraise |];
    (destruct (negb _); simpl; [by apply Hraise | by apply Hok]).
Qed.



End wp_store.

(** *** Messages and their handlers *)

Section dispatch.

Context `{B : Builtins} (ADMIN_IDS : gset Z).




End dispatch.

#[local] Opaque db_fetch_apartment db_update_apartment db_insert_apartment.
#[local] Opaque wp bind ret lift raise get_data get_state update_data set_state
  state_clear answer delete_message call_answer.

(** One step through the code of a handler. *)
Ltac wp_step :=
  first
    [ apply wp_ret | apply wp_lift | apply wp_raise
    | apply wp_get_data | apply wp_get_state | apply wp_update_data
    | apply wp_set_state | apply wp_state_clear | apply wp_answer
    | apply wp_delete_message | apply wp_call_answer | apply wp_bind ];
  lazy beta iota zeta;
  cbn [w_state w_data w_apartments w_next_apt_id w_db_faults w_outbox
       w_next_message_id with_fsm emit].

Ltac wp_steps := repeat wp_step.

(** The value of a comparison of two literals of the source. *)
Ltac lit_decide :=
  repeat match goal with
  | |- context [bool_decide (lit ?a = lit ?b)] =>
      let v := eval vm_compute in (bool_decide (lit a = lit b)) in
      change (bool_decide (lit a = lit b)) with v
  | |- context [bool_decide (lit ?a ≠ lit ?b)] =>
      let v := eval vm_compute in (bool_decide (lit a ≠ lit b)) in
      change (bool_decide (lit a ≠ lit b)) with v
  end.


(** Two literals of the source that differ. *)
Ltac lit_neq :=
  let H := fresh in intros H; vm_compute in H; discriminate H.

Section wizard_properties.
Context `{B : Builtins} (ADMIN_IDS : gset Z).

#[local] Opaque lit str_of_int.

(** What a handler leaves alone besides the FSM context and the chat. *)
Definition same_store (w w' : world) : Prop :=
  w_apartments w' = w_apartments w ∧ w_next_apt_id w' = w_next_apt_id w
  ∧ w_db_faults w' = w_db_faults w.

Lemma wp_wizard_clear_prev_prompt Q w :
  (∀ w', w_state w' = w_state w → w_data w' = w_data w →
         w_next_message_id w' = w_next_message_id w → same_store w w' →
         Q (Ok tt) w') →
  wp wizard_clear_prev_prompt Q w.
Proof.
  intros HQ. unfold wizard_clear_prev_prompt. wp_steps.
  destruct (negb _); [wp_steps; by apply HQ|].
  destruct (py_int _); wp_steps; by apply HQ.
Qed.

#[local] Opaque wizard_clear_prev_prompt.

Lemma wp_wizard_send_prompt text kb Q w :
  (∀ w', w_state w' = w_state w →
         w_data w' = <[lit "wizard_prompt_message_id" := VInt (w_next_message_id w)]> (w_data w) →
         last (w_outbox w') = Some (SendMessage text (Some kb)) →
         same_store w w' →
         Q (Ok tt) w') →
  wp (wizard_send_prompt text kb) Q w.
Proof.
  intros HQ. unfold wizard_send_prompt. wp_step.
  apply wp_wizard_clear_prev_prompt. intros w1 Hs Hd Hn Hst. wp_steps.
  apply HQ; simpl; [done | by rewrite Hd, Hn | by rewrite last_snoc | done].
Qed.


#[local] Opaque wizard_send_prompt.

(** The state the prompt of step [i] waits in. *)
Definition state_of_step (i : Z) : fsm_state :=
  if i =? 0 then waiting_media else waiting_text.

Lemma wp_wizard_show_step_at i Q w :
  w_data w !! lit "wizard_index" = Some (VInt i) →
  0 ≤ i < 8 →
  (∀ w' text kb,
     w_state w' = Some (state_of_step i) →
     w_data w' = <[lit "wizard_prompt_message_id" := VInt (w_next_message_id w)]> (w_data w) →
     last (w_outbox w') = Some (SendMessage text (Some kb)) →
     same_store w w' →
     Q (Ok tt) w') →
  wp wizard_show_step Q w.
Proof.
  intros Hidx Hi HQ. unfold wizard_show_step. wp_steps.
  unfold dict_get. rewrite Hidx. simpl. wp_steps.
  assert (Hcases : i = 0 ∨ i = 1 ∨ i = 2 ∨ i = 3 ∨ i = 4 ∨ i = 5 ∨ i = 6 ∨ i = 7) by lia.
  destruct Hcases as [-> | [-> | [-> | [-> | [-> | [-> | [-> | ->]]]]]]]; simpl;
    wp_steps; lit_decide; lazy beta iota zeta; wp_steps.
  all: apply wp_wizard_send_prompt; intros w' Hs Hd Hl Hst; eapply HQ; eauto.
Qed.


(** A handler that only prompts keeps every entry of the data but the
    identifier of the prompt. *)
Definition fields_kept (w w' : world) : Prop :=
  ∀ k, k ≠ lit "wizard_prompt_message_id" → w_data w' !! k = w_data w !! k.

Lemma wp_wizard_show_step_frame Q w :
  (∀ r w', fields_kept w w' → same_store w w' → Q r w') →
  wp wizard_show_step Q w.
Proof.
  intros HQ.
  assert (Hsame : same_store w w) by done.
  assert (Hkept : fields_kept w w) by done.
  unfold wizard_show_step. wp_steps.
  destruct (py_int _); [|by apply HQ]. wp_steps.
  destruct (py_getitem _ _) as [step|]; [|by apply HQ]. wp_steps.
  assert (Hprompt : ∀ s text kb,
            wp (wizard_send_prompt text kb) Q (with_fsm (Some s) (w_data w) w)).
  { intros s text kb. apply wp_wizard_send_prompt. intros w' _ Hd _ Hst.
    apply HQ; [|done]. intros k Hk. rewrite Hd. simpl. by rewrite lookup_insert_ne. }
  repeat case_bool_decide; wp_steps; try apply Hprompt.
  all: destruct (options step); wp_steps; [apply Hprompt | by apply HQ].
Qed.

(** On the media step the prompt is the one of the media step. *)
Lemma wp_wizard_show_step_media i st Q w :
  py_int (dict_get (w_data w) (lit "wizard_index") (VInt 0)) = Ok i →
  py_getitem APARTMENT_WIZARD_STEPS i = Ok st →
  kind st = lit "media_upload" →
  (∀ w' text,
     w_state w' = Some waiting_media →
     w_data w' = <[lit "wizard_prompt_message_id" := VInt (w_next_message_id w)]> (w_data w) →
     last (w_outbox w') = Some (SendMessage text (Some wizard_media_kb)) →
     same_store w w' →
     Q (Ok tt) w') →
  wp wizard_show_step Q w.
Proof.
  intros Hidx Hst Hkind HQ. unfold wizard_show_step. wp_steps.
  rewrite Hidx. wp_steps. rewrite Hst. wp_steps. rewrite Hkind. lit_decide.
  lazy beta iota zeta. wp_steps.
  apply wp_wizard_send_prompt. intros w' Hs Hd Hl Hst'. by eapply HQ.
Qed.

#[local] Opaque wizard_show_step.

Lemma wp_wizard_advance_next i Q w :
  w_data w !! lit "wizard_index" = Some (VInt i) →
  0 ≤ i < 7 →
  (∀ w' text kb,
     w_state w' = Some (state_of_step (i + 1)) →
     w_data w' = <[lit "wizard_prompt_message_id" := VInt (w_next_message_id w)]>
                   (<[lit "custom_step_key" := VNone]>
                      (<[lit "wizard_index" := VInt (i + 1)]> (w_data w))) →
     last (w_outbox w') = Some (SendMessage text (Some kb)) →
     same_store w w' →
     Q (Ok tt) w') →
  wp wizard_advance Q w.
Proof.
  intros Hidx Hi HQ. unfold wizard_advance. wp_steps.
  unfold dict_get. rewrite Hidx. simpl. wp_steps.
  destruct (_ <=? i + 1) eqn:Hle; [apply Z.leb_le in Hle; simpl in Hle; lia|].
  apply (wp_wizard_show_step_at (i + 1)); simpl.
  - rewrite lookup_insert_ne by lit_neq. by rewrite lookup_insert_eq.
  - lia.
  - intros w' text kb Hs Hd Hl Hst. by eapply HQ.
Qed.


(** The media entry of the data is a list, or absent. *)
Definition media_ok (data : gmap pystr value) : Prop :=
  data !! lit "media_items" = None ∨ ∃ l, data !! lit "media_items" = Some (VMedia l).

Lemma media_list_insert_ne k v data :
  k ≠ lit "media_items" → media_list (<[k := v]> data) = media_list data.
Proof. intros Hk. unfold media_list, dict_get. by rewrite lookup_insert_ne. Qed.

Lemma media_ok_insert_ne k v data :
  k ≠ lit "media_items" → media_ok data → media_ok (<[k := v]> data).
Proof. intros Hk. unfold media_ok. by rewrite lookup_insert_ne. Qed.

Lemma preview_media_count_ok data :
  media_ok data → preview_media_count data = Ok (Z.of_nat (length (media_list data))).
Proof.
  unfold preview_media_count, media_list, or_empty_list, dict_get.
  intros [-> | [l ->]]; simpl; [done|].
  case_bool_decide; [done|]. by destruct l.
Qed.

(** The preview of data whose media entry is a list: the template,
    rendered. *)
Lemma build_apartment_preview_text_ok data :
  media_ok data →
  build_apartment_preview_text data
  = Ok (concat (render_segment data (Z.of_nat (length (media_list data)))
                  <$> preview_template)).
Proof.
  intros Hok. unfold build_apartment_preview_text.
  by rewrite preview_media_count_ok.
Qed.


(** What [wizard_advance] at index [i] makes of the world [w], the data
    being [data] when it starts. *)
Definition advanced (i : Z) (w w' : world) : Prop :=
  let data := <[lit "custom_step_key" := VNone]>
                (<[lit "wizard_index" := VInt (i + 1)]> (w_data w)) in
  w_data w' = <[lit "wizard_prompt_message_id" := VInt (w_next_message_id w)]> data
  ∧ same_store w w'
  ∧ if i + 1 <? 8 then
      w_state w' = Some (state_of_step (i + 1))
      ∧ ∃ text kb, last (w_outbox w') = Some (SendMessage text (Some kb))
    else
      w_state w' = Some preview
      ∧ ∃ text, build_apartment_preview_text data = Ok text
                ∧ last (w_outbox w') = Some (SendMessage text (Some wizard_preview_kb)).

Lemma wp_wizard_advance i Q w :
  w_data w !! lit "wizard_index" = Some (VInt i) →
  0 ≤ i →
  media_ok (w_data w) →
  (∀ w', advanced i w w' → Q (Ok tt) w') →
  wp wizard_advance Q w.
Proof.
  intros Hidx Hi Hmedia HQ.
  destruct (Z.ltb_spec (i + 1) 8) as [Hlt|Hge].
  - apply (wp_wizard_advance_next i); [done | lia |].
    intros w' text kb Hs Hd Hl Hst. apply HQ. unfold advanced.
    destruct (Z.ltb_spec (i + 1) 8); [|lia]. eauto 10.
  - unfold wizard_advance. wp_steps.
    unfold dict_get. rewrite Hidx. simpl. wp_steps.
    destruct (_ <=? i + 1) eqn:Hle; [|apply Z.leb_gt in Hle; simpl in Hle; lia].
    wp_steps. apply wp_wizard_clear_prev_prompt. intros w1 Hs1 Hd1 Hn1 Hst1.
    simpl in Hs1, Hd1, Hn1. wp_steps.
    rewrite build_apartment_preview_text_ok
      by (apply media_ok_insert_ne; [lit_neq|]; apply media_ok_insert_ne; [lit_neq|done]).
    wp_steps. apply HQ. unfold advanced.
    destruct (Z.ltb_spec (i + 1) 8); [lia|]. simpl.
    split_and!; [by rewrite Hd1, Hn1 | done | done |].
    eexists. split; [|by rewrite last_snoc].
    apply build_apartment_preview_text_ok.
    apply media_ok_insert_ne; [lit_neq|]; apply media_ok_insert_ne; [lit_neq|done].
Qed.


#[local] Opaque wizard_advance.

(** *** Inputs and the steps they are for *)

(** The step the wizard is at, as the handlers look it up. *)
Definition current_step (data : gmap pystr value) : result step :=
  match py_int (dict_get data (lit "wizard_index") (VInt 0)) with
  | Ok idx => py_getitem APARTMENT_WIZARD_STEPS idx
  | Raise e => Raise e
  end.

(** The text of a message as the text handler reads it. *)
Definition input_text (msg : message) : pystr := strip (default [] (msg_text msg)).

(** A message is a valid input for a step: it has text; for an integer
    step the text is made of digits and reads as a number; for a link
    step it starts with [http://] or [https://]. *)
Definition valid_text (st : step) (msg : message) : Prop :=
  input_text msg ≠ []
  ∧ (kind st = lit "int" →
       str_isdigit (input_text msg) = true ∧ is_Some (int_of_str (input_text msg)))
  ∧ (kind st = lit "url" →
       startswith (input_text msg) (lit "http://") = true
       ∨ startswith (input_text msg) (lit "https://") = true).

(** A message is an invalid input for a step: no text; on an integer
    step, text that is not made of digits; on a link step, text without
    the [http://] or [https://] prefix. *)
Definition invalid_text (st : step) (msg : message) : Prop :=
  input_text msg = []
  ∨ (kind st = lit "int" ∧ str_isdigit (input_text msg) = false)
  ∨ (kind st = lit "url"
     ∧ startswith (input_text msg) (lit "http://") = false
     ∧ startswith (input_text msg) (lit "https://") = false).

(** What a valid input leaves in the data under the key of its step. *)
Definition stored_value (st : step) (msg : message) : value :=
  if bool_decide (kind st = lit "int")
  then VInt (default 0 (int_of_str (input_text msg)))
  else VStr (input_text msg).

(** The steps after the media step take text; their keys are no
    bookkeeping entries of the wizard. *)
Lemma text_step_facts i st :
  py_getitem APARTMENT_WIZARD_STEPS i = Ok st →
  1 ≤ i ≤ 7 →
  key st ≠ lit "custom_step_key" ∧ key st ≠ lit "media_items"
  ∧ key st ≠ lit "wizard_index" ∧ key st ≠ lit "wizard_prompt_message_id"
  ∧ key st ≠ lit "wizard_mode" ∧ key st ≠ lit "wizard_apartment_id"
  ∧ kind st ≠ lit "choice" ∧ kind st ≠ lit "media_upload".
Proof.
  intros Hst Hi.
  assert (Hcases : i = 1 ∨ i = 2 ∨ i = 3 ∨ i = 4 ∨ i = 5 ∨ i = 6 ∨ i = 7) by lia.
  destruct Hcases as [-> | [-> | [-> | [-> | [-> | [-> | ->]]]]]];
    vm_compute in Hst; injection Hst as <-; split_and!; lit_neq.
Qed.

Lemma wp_msg_text_valid i st msg Q w :
  msg_from msg ∈ ADMIN_IDS →
  w_data w !! lit "wizard_index" = Some (VInt i) →
  1 ≤ i ≤ 7 →
  py_getitem APARTMENT_WIZARD_STEPS i = Ok st →
  truthy (dict_get (w_data w) (lit "custom_step_key") VNone) = false →
  media_ok (w_data w) →
  valid_text st msg →
  (∀ w1 w',
     w_data w1 = <[lit "custom_step_key" := VNone]>
                   (<[key st := stored_value st msg]> (w_data w)) →
     w_next_message_id w1 = w_next_message_id w →
     same_store w w1 →
     advanced i w1 w' →
     Q (Ok tt) w') →
  wp (msg_apartment_wizard_text ADMIN_IDS msg) Q w.
Proof.
  intros Hadmin Hidx Hi Hst Hcustom Hmedia (Hraw & Hint & Hurl) HQ.
  destruct (text_step_facts i st Hst Hi) as (Hk1 & Hk2 & Hk3 & Hk4 & _).
  unfold msg_apartment_wizard_text.
  rewrite bool_decide_eq_false_2 by (by intros ?).
  fold (input_text msg). destruct (input_text msg) as [|c raw] eqn:Hinput; [done|].
  rewrite <- Hinput in *. clear c raw Hinput.
  wp_steps. unfold dict_get at 1. rewrite Hidx. simpl py_int. wp_steps.
  rewrite Hst. wp_steps. rewrite Hcustom.
  rewrite (bool_decide_eq_false_2 (key st = lit "custom_step_key")) by done.
  assert (Hstore :
            wp (bind (update_data [(key st, stored_value st msg);
                                   (lit "custom_step_key", VNone)])
                  (λ _, bind (delete_message (msg_id msg)) (λ _, wizard_advance)))
               Q w).
  { wp_steps. apply (wp_wizard_advance i); simpl.
    - rewrite !lookup_insert_ne by done. done.
    - lia.
    - apply media_ok_insert_ne; [lit_neq|]. by apply media_ok_insert_ne.
    - intros w' Hadv. eapply HQ; [ | | | exact Hadv]; done. }
  unfold stored_value in Hstore.
  destruct (decide (kind st = lit "int")) as [Hkint|Hkint].
  - rewrite (bool_decide_eq_true_2 _ Hkint) in *.
    destruct (Hint Hkint) as [Hdigit [n Hn]]. rewrite Hdigit. simpl negb. cbv iota.
    wp_steps. simpl py_int. rewrite Hn in *. wp_steps. exact Hstore.
  - rewrite (bool_decide_eq_false_2 _ Hkint) in *.
    destruct (decide (kind st = lit "url")) as [Hkurl|Hkurl].
    + rewrite (bool_decide_eq_true_2 _ Hkurl).
      destruct (Hurl Hkurl) as [-> | ->]; rewrite ?orb_true_r; exact Hstore.
    + rewrite (bool_decide_eq_false_2 _ Hkurl). exact Hstore.
Qed.


(** An input is valid, invalid, or made of digits that [int] refuses. *)
Lemma text_input_cases st msg :
  valid_text st msg ∨ invalid_text st msg
  ∨ (kind st = lit "int" ∧ str_isdigit (input_text msg) = true
     ∧ int_of_str (input_text msg) = None).
Proof.
  unfold valid_text, invalid_text.
  destruct (decide (input_text msg = [])) as [?|Hraw]; [right; left; by left|].
  destruct (decide (kind st = lit "int")) as [Hint|Hint].
  - destruct (str_isdigit (input_text msg)) eqn:Hdigit; [|right; left; right; by left].
    destruct (int_of_str (input_text msg)) as [n|] eqn:Hn; [|right; by right].
    left. split_and!; [done | by intros _ | ].
    intros Hurl. rewrite Hint in Hurl. by vm_compute in Hurl.
  - destruct (decide (kind st = lit "url")) as [Hurl|Hurl].
    + destruct (startswith (input_text msg) (lit "http://")) eqn:H1;
        [left; split_and!; [done | done | by left]|].
      destruct (startswith (input_text msg) (lit "https://")) eqn:H2;
        [left; split_and!; [done | done | by right]|].
      right; left. right; right. done.
    + left. split_and!; done.
Qed.

(** The FSM context and the store are as before. *)
Definition session_kept (w w' : world) : Prop :=
  w_state w' = w_state w ∧ w_data w' = w_data w ∧ same_store w w'.

Lemma wp_msg_text_invalid msg Q w :
  (input_text msg = []
   ∨ ∃ st, current_step (w_data w) = Ok st ∧ invalid_text st msg) →
  (∀ w', session_kept w w' → Q (Ok tt) w') →
  wp (msg_apartment_wizard_text ADMIN_IDS msg) Q w.
Proof.
  intros Hinvalid HQ. unfold msg_apartment_wizard_text.
  case_bool_decide; [wp_steps; by apply HQ|].
  fold (input_text msg). destruct (input_text msg) as [|c raw] eqn:Hinput;
    [wp_steps; by apply HQ|].
  assert (Hne : input_text msg ≠ []) by by rewrite Hinput.
  rewrite <- Hinput in *. clear c raw Hinput.
  destruct Hinvalid as [Hempty | (st & Hst & Hinv)]; [done|].
  unfold current_step in Hst. wp_steps.
  destruct (py_int _) as [idx|]; [|done]. wp_steps. rewrite Hst. wp_steps.
  destruct Hinv as [Hempty | [[Hkind Hdigit] | (Hkind & H1 & H2)]]; [done | |].
  - rewrite (bool_decide_eq_true_2 _ Hkind), Hdigit. simpl negb. cbv iota.
    wp_steps. by apply HQ.
  - rewrite bool_decide_eq_false_2 by (rewrite Hkind; lit_neq).
    rewrite (bool_decide_eq_true_2 _ Hkind), H1, H2. simpl negb. cbv iota.
    wp_steps. by apply HQ.
Qed.


(** Digits that [int] refuses raise before anything is stored. *)
Lemma wp_msg_text_refused st msg Q w :
  current_step (w_data w) = Ok st →
  kind st = lit "int" → str_isdigit (input_text msg) = true →
  int_of_str (input_text msg) = None →
  (∀ r w', session_kept w w' → Q r w') →
  wp (msg_apartment_wizard_text ADMIN_IDS msg) Q w.
Proof.
  intros Hst Hkind Hdigit Hint HQ. unfold msg_apartment_wizard_text.
  case_bool_decide; [wp_steps; by apply HQ|].
  fold (input_text msg). destruct (input_text msg) as [|c raw] eqn:Hinput;
    [wp_steps; by apply HQ|].
  rewrite <- Hinput in *. clear c raw Hinput.
  unfold current_step in Hst. wp_steps.
  destruct (py_int _) as [idx|]; [|done]. wp_steps. rewrite Hst. wp_steps.
  rewrite (bool_decide_eq_true_2 _ Hkind), Hdigit. simpl negb. cbv iota.
  wp_steps. simpl py_int. rewrite Hint. by apply HQ.
Qed.

(** *** The media step *)

Lemma wp_msg_media msg Q w :
  (∀ r w', session_kept w w' → Q r w') →
  (∀ w' text,
     msg_from msg ∈ ADMIN_IDS →
     accepted_media msg ≠ [] →
     w_state w' = Some waiting_media →
     w_data w' = <[lit "wizard_prompt_message_id" := VInt (w_next_message_id w)]>
                   (<[lit "media_items" :=
                        VMedia (media_list (w_data w) ++ accepted_media msg)]> (w_data w)) →
     last (w_outbox w') = Some (SendMessage text (Some wizard_media_kb)) →
     same_store w w' →
     Q (Ok tt) w') →
  wp (msg_apartment_wizard_media ADMIN_IDS msg) Q w.
Proof.
  intros Hkept Hgrown. unfold msg_apartment_wizard_media.
  case_bool_decide as Hadmin; [wp_steps; by apply Hkept|].
  wp_steps. destruct (py_int _) as [idx|] eqn:Hidx; [|by apply Hkept]. wp_steps.
  destruct (_ <=? idx); [wp_steps; by apply Hkept|]. wp_steps.
  destruct (py_getitem _ _) as [st|] eqn:Hst; [|by apply Hkept]. wp_steps.
  case_bool_decide as Hkind; [wp_steps; by apply Hkept|].
  case_bool_decide as Hadded; [wp_steps; by apply Hkept|].
  assert (Hne : accepted_media msg ≠ []) by (by destruct (accepted_media msg)).
  wp_steps. apply (wp_wizard_show_step_media idx st); simpl; [ | done | done | ].
  - unfold dict_get. rewrite lookup_insert_ne by lit_neq. exact Hidx.
  - intros w' text Hs Hd Hl Hstore. by eapply Hgrown.
Qed.



(** [cb_apartment_wizard_media_done] on the media step. *)
Lemma wp_media_done u Q w :
  u ∈ ADMIN_IDS →
  w_state w = Some waiting_media →
  w_data w !! lit "wizard_index" = Some (VInt 0) →
  (∀ w',
     w_state w' = Some waiting_text →
     w_data w' = <[lit "wizard_prompt_message_id" := VInt (w_next_message_id w)]>
                   (<[lit "custom_step_key" := VNone]>
                      (<[lit "wizard_index" := VInt 1]> (w_data w))) →
     same_store w w' →
     Q (Ok tt) w') →
  wp (cb_apartment_wizard_media_done ADMIN_IDS u) Q w.
Proof.
  intros Hadmin Hstate Hidx HQ. unfold cb_apartment_wizard_media_done.
  rewrite bool_decide_eq_false_2 by (by intros ?). wp_steps.
  rewrite Hstate. rewrite bool_decide_eq_false_2 by (by intros ?). wp_steps.
  apply (wp_wizard_advance_next 0); [done | lia |].
  intros w' text kb Hs Hd Hl Hstore. wp_steps. apply HQ; done.
Qed.

(** [cb_admin_apt_add] starts from an empty session on the media step. *)
Lemma wp_cb_admin_apt_add u Q w :
  u ∈ ADMIN_IDS →
  (∀ w',
     w_state w' = Some waiting_media →
     w_data w' = <[lit "wizard_prompt_message_id" := VInt (w_next_message_id w + 1)]>
                   (<[lit "wizard_mode" := VStr (lit "add")]>
                      (<[lit "wizard_index" := VInt 0]> ∅)) →
     same_store w w' →
     Q (Ok tt) w') →
  wp (cb_admin_apt_add ADMIN_IDS u) Q w.
Proof.
  intros Hadmin HQ. unfold cb_admin_apt_add.
  rewrite bool_decide_eq_false_2 by (by intros ?). wp_steps.
  apply (wp_wizard_show_step_at 0); simpl.
  - rewrite lookup_insert_ne by lit_neq. by rewrite lookup_insert_eq.
  - lia.
  - intros w' text kb Hs Hd Hl Hstore. wp_steps. apply HQ; done.
Qed.


(** *** Leaving the preview *)

(** The rows the save branch writes for the data of the session. *)
Definition written (c : commit_row) (w w' : world) : Prop :=
  (w_apartments w' = w_apartments w ++ [inserted_apartment (w_next_apt_id w) c])
  ∨ (∃ id, w_apartments w' = update_apartment id c (w_apartments w)).

Lemma wp_wizard_save Q w :
  (∀ e w', untouched w w' → Q (Raise e) w') →
  (∀ c w',
     commit_values (w_data w) = Ok c →
     w_state w' = None → w_data w' = ∅ →
     written c w w' →
     Q (Ok tt) w') →
  wp wizard_save Q w.
Proof.
  intros Hraise Hok. unfold wizard_save. wp_steps.
  destruct (commit_values _) as [c|] eqn:Hc; [|by apply Hraise]. wp_steps.
  destruct (_ && _).
  - wp_steps. destruct (py_int _) as [id|]; [|by apply Hraise]. wp_steps.
    apply wp_db_update_apartment; [done|].
    intros w1 (Hs & Hd & Ha & Hn & Ho & Hm). wp_steps.
    apply (Hok c); simpl; [done | done | done |]. right. by exists id.
  - wp_steps. apply wp_db_insert_apartment; [done|].
    intros w1 (Hs & Hd & Ha & Hn & Ho & Hm). wp_steps.
    apply (Hok c); simpl; [done | done | done |]. by left.
Qed.



#[local] Opaque wizard_save.


(** *** An invariant of the session *)

(** No redirect to a custom key is pending, the media entry is a list,
    the media prompt stands at index 0 and a text prompt at one of the
    indices 1 to 7, and no choice is ever awaited. *)
Definition wizard_inv (w : world) : Prop :=
  truthy (dict_get (w_data w) (lit "custom_step_key") VNone) = false
  ∧ media_ok (w_data w)
  ∧ match w_state w with
    | Some waiting_media => w_data w !! lit "wizard_index" = Some (VInt 0)
    | Some waiting_text =>
        ∃ i, w_data w !! lit "wizard_index" = Some (VInt i) ∧ 1 ≤ i ≤ 7
    | Some waiting_choice => False
    | _ => True
    end.

Lemma wizard_inv_ext w w' :
  w_state w' = w_state w → w_data w' = w_data w → wizard_inv w → wizard_inv w'.
Proof. unfold wizard_inv. by intros -> ->. Qed.

Lemma wizard_inv_kept w w' : session_kept w w' → wizard_inv w → wizard_inv w'.
Proof. intros (? & ? & _). by apply wizard_inv_ext. Qed.

Lemma wizard_inv_untouched w w' : untouched w w' → wizard_inv w → wizard_inv w'.
Proof. intros (? & ? & _). by apply wizard_inv_ext. Qed.

Lemma wizard_inv_cleared w : w_state w = None → w_data w = ∅ → wizard_inv w.
Proof.
  intros Hs Hd. unfold wizard_inv, media_ok, dict_get. rewrite Hs, Hd, !lookup_empty.
  split_and!; [done | by left | done].
Qed.

(** The invariant after a prompt for step [i]. *)
Lemma wizard_inv_prompted i n data w' :
  0 ≤ i ≤ 7 →
  data !! lit "wizard_index" = Some (VInt i) →
  truthy (dict_get data (lit "custom_step_key") VNone) = false →
  media_ok data →
  w_state w' = Some (state_of_step i) →
  w_data w' = <[lit "wizard_prompt_message_id" := VInt n]> data →
  wizard_inv w'.
Proof.
  intros Hi Hidx Hcustom Hmedia Hs Hd.
  unfold wizard_inv, dict_get in *. rewrite Hs, Hd.
  rewrite lookup_insert_ne by lit_neq.
  split_and!; [done | by apply media_ok_insert_ne; [lit_neq|] |].
  unfold state_of_step. destruct (Z.eqb_spec i 0) as [->|].
  - by rewrite lookup_insert_ne by lit_neq.
  - exists i. rewrite lookup_insert_ne by lit_neq. split; [done | lia].
Qed.


(** The invariant holds in a session that was just seeded, whatever the
    seed: the index is 0 and the media entry, if any, is a list. *)
Definition seeded (data : gmap pystr value) : Prop :=
  data !! lit "wizard_index" = Some (VInt 0)
  ∧ data !! lit "custom_step_key" = None
  ∧ media_ok data.

Lemma seeded_add :
  seeded (<[lit "wizard_mode" := VStr (lit "add")]> (<[lit "wizard_index" := VInt 0]> ∅)).
Proof.
  unfold seeded, media_ok. split_and!.
  - rewrite lookup_insert_ne by lit_neq. by rewrite lookup_insert_eq.
  - rewrite !lookup_insert_ne by lit_neq. by rewrite lookup_empty.
  - left. rewrite !lookup_insert_ne by lit_neq. by rewrite lookup_empty.
Qed.

Lemma seeded_edit id apt :
  seeded (foldl (λ d p, <[p.1 := p.2]> d) ∅
            ([(lit "wizard_index", VInt 0); (lit "wizard_mode", VStr (lit "edit"));
              (lit "wizard_apartment_id", VInt id)]
             ++ apartment_wizard_defaults_from_apartment apt)).
Proof.
  unfold seeded, media_ok, apartment_wizard_defaults_from_apartment. simpl.
  split_and!.
  - rewrite !lookup_insert_ne by lit_neq. by rewrite lookup_insert_eq.
  - rewrite !lookup_insert_ne by lit_neq. by rewrite lookup_empty.
  - right. rewrite !lookup_insert_ne by lit_neq. rewrite lookup_insert_eq. eauto.
Qed.

(** The prompt of the first step in a session that was just seeded. *)
Lemma wp_show_first_step Q w :
  seeded (w_data w) →
  (∀ w' n, w_state w' = Some waiting_media →
           w_data w' = <[lit "wizard_prompt_message_id" := VInt n]> (w_data w) →
           same_store w w' →
           Q (Ok tt) w') →
  wp wizard_show_step Q w.
Proof.
  intros (Hidx & _ & _) HQ.
  apply (wp_wizard_show_step_at 0); [done | lia |].
  intros w' text' kb Hs Hd Hl Hstore. by eapply HQ.
Qed.

Lemma wizard_inv_seeded n data w' :
  seeded data →
  w_state w' = Some waiting_media →
  w_data w' = <[lit "wizard_prompt_message_id" := VInt n]> data →
  wizard_inv w'.
Proof.
  intros (Hidx & Hcustom & Hmedia) Hs Hd.
  apply (wizard_inv_prompted 0 n data); try done.
  unfold dict_get. by rewrite Hcustom.
Qed.

Lemma wp_cb_admin_apt_wizard_inv u id w :
  wizard_inv w →
  wp (cb_admin_apt_wizard ADMIN_IDS u id) (λ _ w', wizard_inv w') w.
Proof.
  intros Hinv. unfold cb_admin_apt_wizard.
  case_bool_decide; [wp_steps; by eapply wizard_inv_ext|]. wp_steps.
  apply wp_db_fetch_apartment; intros w1 Hw1; lazy beta iota;
    [intros e; by eapply wizard_inv_untouched|].
  pose proof (wizard_inv_untouched _ _ Hw1 Hinv) as Hinv1.
  destruct (head _) as [apt|]; wp_steps; [|by eapply wizard_inv_ext].
  apply wp_show_first_step; cbn [w_data]; [apply seeded_edit|].
  intros w' n Hs Hd _. wp_steps.
  eapply wizard_inv_seeded; [apply (seeded_edit id apt) | done | done].
Qed.

Lemma wp_wizard_restart_inv w :
  wp wizard_restart (λ _ w', wizard_inv w') w.
Proof.
  unfold wizard_restart. wp_steps.
  destruct (_ && _); wp_steps.
  - destruct (py_int _) as [id|]; wp_steps; [|by apply wizard_inv_cleared].
    apply wp_db_fetch_apartment; intros w1 (Hs1 & Hd1 & _); lazy beta iota;
      [intros e; by apply wizard_inv_cleared|].
    destruct (head _) as [apt|]; wp_steps.
    + apply wp_show_first_step; cbn [w_data]; rewrite Hd1; [apply seeded_edit|].
      intros w' n Hs Hd _. wp_steps.
      eapply wizard_inv_seeded; [apply (seeded_edit id apt) | done | done].
    + apply wp_show_first_step; cbn [w_data foldl fst snd]; rewrite Hd1; [apply seeded_add|].
      intros w' n Hs Hd _. wp_steps. by eapply wizard_inv_seeded; [apply seeded_add | |].
  - apply wp_show_first_step; cbn [w_data foldl fst snd]; [apply seeded_add|].
    intros w' n Hs Hd _. wp_steps. by eapply wizard_inv_seeded; [apply seeded_add | |].
Qed.


(** *** Events that start or end a session *)





Lemma text_step_exists i :
  1 ≤ i ≤ 7 → ∃ st, py_getitem APARTMENT_WIZARD_STEPS i = Ok st.
Proof.
  intros Hi.
  assert (Hcases : i = 1 ∨ i = 2 ∨ i = 3 ∨ i = 4 ∨ i = 5 ∨ i = 6 ∨ i = 7) by lia.
  destruct Hcases as [-> | [-> | [-> | [-> | [-> | [-> | ->]]]]]]; eexists; reflexivity.
Qed.

(** The accepted-item count: the length of the media list, as the prompt
    of the media step shows it. *)
Definition media_count (w : world) : nat := length (media_list (w_data w)).

(** After a step forward from a text step the invariant holds and the
    media list is the one of before. *)
Lemma advanced_inv i st v w w1 w' :
  1 ≤ i ≤ 7 →
  py_getitem APARTMENT_WIZARD_STEPS i = Ok st →
  media_ok (w_data w) →
  w_data w1 = <[lit "custom_step_key" := VNone]> (<[key st := v]> (w_data w)) →
  advanced i w1 w' →
  wizard_inv w' ∧ media_list (w_data w') = media_list (w_data w).
Proof.
  intros Hi Hst Hmedia Hd1 (Hd & _ & Hrest).
  destruct (text_step_facts i st Hst Hi) as (_ & Hk2 & _).
  assert (Hlist : media_list (w_data w') = media_list (w_data w)).
  { rewrite Hd, Hd1. rewrite !media_list_insert_ne; first [done | lit_neq]. }
  split; [|done].
  assert (Hok : media_ok (<[lit "custom_step_key" := VNone]>
                            (<[lit "wizard_index" := VInt (i + 1)]> (w_data w1)))).
  { rewrite Hd1. repeat (apply media_ok_insert_ne; [first [done | lit_neq]|]). done. }
  assert (Hcustom : truthy (dict_get (<[lit "custom_step_key" := VNone]>
                              (<[lit "wizard_index" := VInt (i + 1)]> (w_data w1)))
                              (lit "custom_step_key") VNone) = false).
  { unfold dict_get. by rewrite lookup_insert_eq. }
  destruct (Z.ltb_spec (i + 1) 8) as [Hlt|Hge].
  - destruct Hrest as [Hs _].
    eapply (wizard_inv_prompted (i + 1)); [lia | | exact Hcustom | exact Hok | exact Hs | exact Hd].
    rewrite lookup_insert_ne by lit_neq. by rewrite lookup_insert_eq.
  - destruct Hrest as [Hs _]. unfold wizard_inv. rewrite Hs, Hd.
    unfold dict_get in *. rewrite lookup_insert_ne by lit_neq.
    split_and!; [done | by apply media_ok_insert_ne; [lit_neq|] | done].
Qed.

Lemma wp_msg_text_inv msg w :
  wizard_inv w →
  w_state w = Some waiting_text →
  wp (msg_apartment_wizard_text ADMIN_IDS msg)
     (λ _ w', wizard_inv w' ∧ media_list (w_data w') = media_list (w_data w)) w.
Proof.
  intros Hinv Hs.
  assert (Hkept : ∀ w', session_kept w w' →
            wizard_inv w' ∧ media_list (w_data w') = media_list (w_data w)).
  { intros w' Hk. split; [by eapply wizard_inv_kept|]. destruct Hk as (_ & -> & _). done. }
  destruct (decide (msg_from msg ∈ ADMIN_IDS)) as [Hadmin|Hadmin].
  2:{ unfold msg_apartment_wizard_text. rewrite bool_decide_eq_true_2 by done.
      wp_steps. by apply Hkept. }
  destruct Hinv as (Hcustom & Hmedia & Hstate). rewrite Hs in Hstate.
  destruct Hstate as (i & Hidx & Hi).
  destruct (text_step_exists i Hi) as [st Hst].
  assert (Hcur : current_step (w_data w) = Ok st).
  { unfold current_step, dict_get. rewrite Hidx. done. }
  destruct (text_input_cases st msg) as [Hvalid | [Hinvalid | (Hkind & Hdigit & Hint)]].
  - eapply wp_msg_text_valid; try done.
    intros w1 w' Hd1 _ _ Hadv. by eapply advanced_inv.
  - apply wp_msg_text_invalid; [right; eauto|]. intros w' Hk. by apply Hkept.
  - eapply wp_msg_text_refused; eauto.
Qed.

Lemma wp_msg_media_inv msg w :
  wizard_inv w →
  w_state w = Some waiting_media →
  wp (msg_apartment_wizard_media ADMIN_IDS msg)
     (λ _ w', wizard_inv w' ∧ (media_count w ≤ media_count w')%nat) w.
Proof.
  intros Hinv Hs. apply wp_msg_media.
  - intros r w' Hk. split; [by eapply wizard_inv_kept|].
    destruct Hk as (_ & Hd & _). unfold media_count. by rewrite Hd.
  - intros w' text _ _ Hs' Hd _ _.
    destruct Hinv as (Hcustom & Hmedia & Hstate). rewrite Hs in Hstate.
    assert (Hlist : media_list (w_data w') = media_list (w_data w) ++ accepted_media msg).
    { rewrite Hd, media_list_insert_ne by lit_neq.
      unfold media_list at 1, dict_get. by rewrite lookup_insert_eq. }
    split; [|unfold media_count; rewrite Hlist, length_app; lia].
    eapply (wizard_inv_prompted 0); [lia | | | | exact Hs' | exact Hd].
    + by rewrite lookup_insert_ne by lit_neq.
    + unfold dict_get in *. by rewrite lookup_insert_ne by lit_neq.
    + right. rewrite lookup_insert_eq. eauto.
Qed.


#[local] Opaque wizard_restart.

(** The events inside a run: they neither start a session nor end one. *)
Definition in_run (ev : event) : Prop :=
  match ev with
  | WizardPick _ _ | WizardMediaDone _ | Incoming _ => True
  | _ => False
  end.

#[local] Instance in_run_dec ev : Decision (in_run ev).
Proof. destruct ev; simpl; apply _. Defined.

(** Every event keeps the invariant, and an event inside a run does not
    lower the accepted-item count. *)
Lemma wp_handle_inv ev w :
  wizard_inv w →
  wp (handle ADMIN_IDS ev)
     (λ _ w', wizard_inv w' ∧ (in_run ev → (media_count w ≤ media_count w')%nat)) w.
Proof.
  intros Hinv.
  assert (Hsame : ∀ w', w_state w' = w_state w → w_data w' = w_data w →
            wizard_inv w' ∧ (in_run ev → (media_count w ≤ media_count w')%nat)).
  { intros w' Hs Hd. split; [by eapply wizard_inv_ext|].
    intros _. unfold media_count. by rewrite Hd. }
  destruct ev as [u | u id | | u v | u | u d | msg]; simpl handle.
  - destruct (decide (u ∈ ADMIN_IDS)) as [Hadmin|Hadmin].
    + apply wp_cb_admin_apt_add; [done|]. intros w' Hs Hd _. split; [|done].
      by eapply wizard_inv_seeded; [apply seeded_add | |].
    + unfold cb_admin_apt_add. rewrite bool_decide_eq_true_2 by done.
      wp_steps. by apply Hsame.
  - eapply wp_mono; [by apply wp_cb_admin_apt_wizard_inv|]. by intros r w' ?.
  - unfold cb_apartment_wizard_cancel. wp_steps. split; [|done].
    by apply wizard_inv_cleared.
  - unfold cb_apartment_wizard_pick.
    case_bool_decide; [wp_steps; by apply Hsame|]. wp_steps.
    case_bool_decide as Hstate; [wp_steps; by apply Hsame|].
    destruct Hinv as (_ & _ & Hst). by rewrite Hstate in Hst.
  - destruct (decide (u ∈ ADMIN_IDS)) as [Hadmin|Hadmin];
      [|unfold cb_apartment_wizard_media_done; rewrite bool_decide_eq_true_2 by done;
        wp_steps; by apply Hsame].
    destruct (decide (w_state w = Some waiting_media)) as [Hstate|Hstate];
      [|unfold cb_apartment_wizard_media_done;
        rewrite bool_decide_eq_false_2 by (by intros ?); wp_steps;
        rewrite bool_decide_eq_true_2 by done; wp_steps; by apply Hsame].
    destruct Hinv as (Hcustom & Hmedia & Hst). rewrite Hstate in Hst.
    apply wp_media_done; [done..|]. intros w' Hs Hd _. split.
    + eapply (wizard_inv_prompted 1); [lia | | | | exact Hs | exact Hd].
      * rewrite lookup_insert_ne by lit_neq. by rewrite lookup_insert_eq.
      * unfold dict_get. by rewrite lookup_insert_eq.
      * repeat (apply media_ok_insert_ne; [lit_neq|]). done.
    + intros _. unfold media_count. rewrite Hd.
      rewrite !media_list_insert_ne by lit_neq. done.
  - unfold cb_apartment_wizard_preview.
    case_bool_decide; [wp_steps; by apply Hsame|].
    case_bool_decide; [wp_steps; split; [by apply wizard_inv_cleared | done]|].
    case_bool_decide.
    + eapply wp_mono; [apply wp_wizard_restart_inv|]. by intros r w' ?.
    + apply wp_wizard_save.
      * intros e w' Hw'. split; [by eapply wizard_inv_untouched | done].
      * intros c w' _ Hs Hd _. split; [by apply wizard_inv_cleared | done].
  - wp_steps. destruct (w_state w) as [[| | | |]|] eqn:Hstate; wp_steps;
      try (by apply Hsame).
    + eapply wp_mono; [by apply wp_msg_text_inv|].
      intros r w' [? Hlist]. split; [done|]. intros _. unfold media_count. by rewrite Hlist.
    + eapply wp_mono; [by apply wp_msg_media_inv|]. by intros r w' [? ?].
Qed.




Lemma run_snoc evs ev w :
  run ADMIN_IDS (evs ++ [ev]) w = exec (handle ADMIN_IDS ev) (run ADMIN_IDS evs w).
Proof. unfold run. by rewrite foldl_app. Qed.

(** The invariant holds all along a run. *)
Lemma wizard_inv_run evs w : wizard_inv w → wizard_inv (run ADMIN_IDS evs w).
Proof.
  intros Hinv. induction evs as [|ev evs IH] using rev_ind; [done|].
  rewrite run_snoc. by apply (wp_elim _ _ _ (wp_handle_inv ev _ IH)).
Qed.


(** *** A run with valid inputs *)







Lemma run_cons ev evs w :
  run ADMIN_IDS (ev :: evs) w = run ADMIN_IDS evs (exec (handle ADMIN_IDS ev) w).
Proof. done. Qed.

Lemma run_app evs1 evs2 w :
  run ADMIN_IDS (evs1 ++ evs2) w = run ADMIN_IDS evs2 (run ADMIN_IDS evs1 w).
Proof. unfold run. by rewrite foldl_app. Qed.















(** *** Invalid input *)


(** *** The media step *)




(** *** The commit *)




End wizard_properties.


(** *** Stripping and splitting *)

Section pystr_properties.
Implicit Types (s l : pystr) (c : N).















End pystr_properties.

(** *** What a commit writes *)

Section commit_properties.
Context `{B : Builtins} (ADMIN_IDS : gset Z).









End commit_properties.

(** *** What the carousel reads back *)

Section carousel_commit.
Context `{B : Builtins} (ADMIN_IDS : gset Z).
Import Carousel.
#[local] Opaque wizard_save.




End carousel_commit.

(** *** Who may use the wizard *)

Section wizard_access.
Context `{B : Builtins} (ADMIN_IDS : gset Z).


End wizard_access.

(** *** A run of the wizard on concrete inputs *)

Module WizardExample.
Import AsciiBuiltins.













End WizardExample.

Section wizard_examples.
Import AsciiBuiltins WizardExample.













End wizard_examples.
